(** * The fetch-based request client of suicrux (api/utils)

    A shallow embedding of the request wrapper ([requestWrapper],
    [decorateRequest], [getHeaderDataDecoration], [checkStatus],
    [parseJSON] and the five exported verb functions) and the properties of
    its contract: URL resolution, auth and payload decoration, token
    eviction on 401/403 and the normalisation of responses.  The App
    container (its lifecycle methods, [getSidebarRouting], [getPageTitle],
    [render] and [mapDispatchToProps]) follows. *)

From stdpp Require Import base option list strings pretty gmap fin_maps.
From Stdlib Require Import ZArith.

Set Warnings "-register-all".

Local Open Scope Z_scope.

(** ** JavaScript values

    Payloads, request objects, parsed bodies and results are JavaScript
    values.  A plain object is a finite map from property names to values;
    [FormData] and [Error] instances are objects that are not plain. *)

Inductive value : Type :=
| VUndefined
| VNull
| VBool (b : bool)
| VNum (n : Z)
| VStr (s : string)
| VArr (items : list value)
| VObj (fields : gmap string value)
| VFormData (entries : list (string * string))
| VError (message : string).

(** [ToBoolean]: what [x ? a : b], [!x] and [a && b] test. *)
Definition truthy (v : value) : bool :=
  match v with
  | VUndefined | VNull => false
  | VBool b => b
  | VNum n => negb (n =? 0)
  | VStr s => negb (String.eqb s "")
  | VArr _ | VObj _ | VFormData _ | VError _ => true
  end.

(** [v instanceof FormData]. *)
Definition instanceof_FormData (v : value) : bool :=
  match v with
  | VFormData _ => true
  | _ => false
  end.

(** [v.k] on a value: [None] when the property does not exist. *)
Definition field (k : string) (v : value) : option value :=
  match v with
  | VObj fields => fields !! k
  | _ => None
  end.

(** [request.headers[k]]. *)
Definition header (k : string) (request : value) : option value :=
  field "headers" request ≫= field k.

(** Object spread [{...a, ...b}]: the properties of [b] win. *)
Definition spread (a b : gmap string value) : gmap string value := b ∪ a.

(** ** lodash's [_.merge]

    [_.merge(object, ...sources)] assigns the properties of each source to
    [object], from left to right; plain objects and arrays are merged
    recursively, any other value is assigned, and a source property that is
    [undefined] is skipped when the destination has the key.  A plain source
    object met where the destination holds no plain object is merged into a
    fresh one. *)

Fixpoint merge_val (src : value) (dst : option value) {struct src} : value :=
  match src with
  | VObj s =>
      VObj (map_fold (λ k sv acc, <[k := merge_val sv (acc !! k)]> acc)
              (match dst with Some (VObj d) => d | _ => ∅ end) s)
  | VArr s =>
      VArr ((fix go (s d : list value) {struct s} : list value :=
               match s with
               | [] => d
               | sv :: s' => merge_val sv (head d) :: go s' (tail d)
               end) s (match dst with Some (VArr d) => d | _ => [] end))
  | VUndefined => default VUndefined dst
  | _ => src
  end.

(** One source merged into [object]; a source that is no plain object has
    no properties to assign. *)
Definition merge_source (object src : value) : value :=
  match src with
  | VObj _ => merge_val src (Some object)
  | _ => object
  end.

Definition lodash_merge (object : value) (sources : list value) : value :=
  foldl merge_source object sources.

(** ** Strings: the regular expression of [decorateRequest] *)

Fixpoint starts_with (p s : string) : bool :=
  match p, s with
  | EmptyString, _ => true
  | String a p', String b s' => if Ascii.eqb a b then starts_with p' s' else false
  | String _ _, EmptyString => false
  end.

(** [re.test(s)] for a pattern without anchors: the pattern matches at
    some position of [s]. *)
Fixpoint regexp_test (matches_here : string → bool) (s : string) : bool :=
  matches_here s ||
  match s with
  | EmptyString => false
  | String _ s' => regexp_test matches_here s'
  end.

(** [/(http|https):\/\//]: one of the two alternatives, then [://]. *)
Definition http_or_https_here (s : string) : bool :=
  starts_with "http://" s || starts_with "https://" s.

Definition isRequestToExternalResource (url : string) : bool :=
  regexp_test http_or_https_here url.

(** ** The world a call runs in *)

Inductive Method := GET | POST | DELETE | HEAD | OPTIONS | PUT | PATCH.

Definition method_name (m : Method) : string :=
  match m with
  | GET => "GET" | POST => "POST" | DELETE => "DELETE" | HEAD => "HEAD"
  | OPTIONS => "OPTIONS" | PUT => "PUT" | PATCH => "PATCH"
  end.

(** A promise that has settled. *)
Inductive Promise (A : Type) : Type :=
| Fulfilled (a : A)
| Rejected (reason : value).
Arguments Fulfilled {A} a.
Arguments Rejected {A} reason.

(** What the client reads of a [Response]: [res.status], [res.ok] and the
    promise [res.json()], rejected when the body is not JSON. *)
Record Response := {
  status : Z;
  ok : bool;
  json : Promise value;
}.

(** The effects of a call, in the order they happen. *)
Inductive event :=
| ResetLocalToken
| ConsoleLog (message : string) (arg : value)
| ConsoleError (err : value)
| Fetch (URL : string) (request : value).

Record World := {
  token : option string;
  events : list event;
}.

Definition M (A : Type) : Type := World → A * World.

Definition run {A} (m : M A) (w : World) : A * World := m w.

#[local] Instance M_ret : MRet M := λ A a w, (a, w).
#[local] Instance M_bind : MBind M :=
  λ A B f m w, let '(a, w') := m w in f a w'.

Definition emit (e : event) : M unit :=
  λ w, (tt, {| token := token w; events := events w ++ [e] |}).

(** Modelled from the spec: the token store, [getLocalToken] and
    [resetLocalToken] of api/LocalStorageCookiesSvc, which is not among the
    sources.  "Must provide: get() -> Token|empty and clear() -> void";
    clearing is "a terminal one-way transition (cleared token stays
    cleared ...)". *)
Definition getLocalToken : M (option string) :=
  λ w, (token w, w).

Definition resetLocalToken : M unit :=
  λ w, (tt, {| token := None; events := events w ++ [ResetLocalToken] |}).

(** [token] as a condition: [null] and the empty string are falsy. *)
Definition token_truthy (t : option string) : bool :=
  match t with
  | Some s => negb (String.eqb s "")
  | None => false
  end.

(** [`JWT ${token}`]. *)
Definition jwt (t : option string) : string :=
  "JWT " +:+ default "null" t.

Definition console_log (message : string) (arg : value) : M unit :=
  emit (ConsoleLog message arg).

Definition console_error (err : value) : M unit :=
  emit (ConsoleError err).

(** [p.then(f)] and [p.catch(h)] on settled promises. *)
Definition then_ {A B} (p : M (Promise A)) (f : A → M (Promise B)) : M (Promise B) :=
  r ← p;
  match r with
  | Fulfilled a => f a
  | Rejected e => mret (Rejected e)
  end.

Definition catch_ {A} (p : M (Promise A)) (h : value → M (Promise A)) : M (Promise A) :=
  r ← p;
  match r with
  | Fulfilled a => mret (Fulfilled a)
  | Rejected e => h e
  end.

(** A function that returns a plain value, passed to [then]. *)
Definition returning {A B} (f : A → M B) : A → M (Promise B) :=
  λ a, b ← f a; mret (Fulfilled b).

(** [{request, URL}], the object [decorateRequest] returns. *)
Record Decorated := {
  request : value;
  URL : string;
}.

(** ** The client *)

Section Client.

(** [process.env.BASE_API]. *)
Variable BASE_API : string.
(** [JSON.stringify], where it returns.  The values of the model are
    finite trees, without cycles or [BigInt]s, and on those it returns a
    string.  On a payload with a cycle or a [BigInt] it throws, inside
    [decorateRequest] and so before the promise chain of [requestWrapper]
    with its [catch]: such a call builds no request and is no call of the
    model, and nothing below is said of it. *)
Variable JSON_stringify : value → string.
(** The network: how [fetch(URL, request)] settles. *)
Variable fetch : string → value → Promise Response.

Definition do_fetch (URL : string) (request : value) : M (Promise Response) :=
  _ ← emit (Fetch URL request);
  mret (fetch URL request).

Definition getHeaderDataDecoration (data : value) : value :=
  let requesDataDecoration : gmap string value :=
    if truthy data then {[ "body" := VStr (JSON_stringify data) ]} else ∅ in
  let requestContentTypeDecoration : gmap string value :=
    if instanceof_FormData data
    then ∅
    else {[ "headers" :=
              VObj {[ "Content-Type" := VStr "application/json; charset=UTF-8" ]} ]} in
  VObj (spread requesDataDecoration requestContentTypeDecoration).

Definition decorateRequest (method : Method) (url : string) (data options : value)
    (cb : value → value) : M Decorated :=
  let defaults := VObj {[ "method" := VStr (method_name method);
                          "headers" := VObj ∅ ]} in
  token ← getLocalToken;
  let isRequestToExternalResource := isRequestToExternalResource url in
  let URL := if isRequestToExternalResource then url else BASE_API +:+ url in
  let requestAuthDecoration :=
    if negb isRequestToExternalResource && token_truthy token
    then VObj {[ "headers" := VObj {[ "Authorization" := VStr (jwt token) ]} ]}
    else VObj ∅ in
  let requestHeadersDataDecoration := getHeaderDataDecoration data in
  let request :=
    lodash_merge (VObj ∅)
      [defaults; requestAuthDecoration; requestHeadersDataDecoration] in
  _ ← (if negb isRequestToExternalResource
       then console_log ("Request " +:+ url +:+ " was sent to our domain") request
       else console_log ("Request " +:+ url +:+ " was sent to external domain") request);
  mret {| request := request; URL := URL |}.

Definition checkStatus (response : Response) : M Response :=
  let status := status response in
  _ ← (if (200 <=? status) && (status <? 300) then mret tt
       else if (300 <=? status) && (status <? 400) then mret tt
       else if status =? 400 then mret tt
       else if (status =? 403) || (status =? 401) then resetLocalToken
       else if status =? 404 then mret tt
       else if 500 <=? status then mret tt
       else mret tt);
  mret response.

Definition parseJSON (res : Response) : M (Promise value) :=
  match json res with
  | Rejected e =>
      if status res =? 204
      then mret (Fulfilled (VObj {[ "ok" := VBool true; "data" := VObj ∅ ]}))
      else mret (Fulfilled (VObj {[ "ok" := VBool false ]}))
  | Fulfilled json =>
      if negb (ok res)
      then mret (Fulfilled (VObj {[ "data" := json; "ok" := VBool false ]}))
      else mret (Fulfilled (VObj {[ "data" := json; "ok" := VBool true ]}))
  end.

(** Default parameters: an argument left out, or [undefined], takes the
    default. *)
Definition or_default (arg default : value) : value :=
  match arg with
  | VUndefined => default
  | _ => arg
  end.

Definition requestWrapper (method : Method)
    (url : string) (data options : value) (cb : option (value → value))
    : M (Promise value) :=
  let data := or_default data VNull in
  let options := or_default options (VObj ∅) in
  let cb := default (λ a, a) cb in
  d ← decorateRequest method url data options cb;
  catch_
    (then_ (then_ (do_fetch (URL d) (request d)) (returning checkStatus)) parseJSON)
    (λ err, _ ← console_error err; mret (Fulfilled err)).

Definition get := requestWrapper GET.
Definition post := requestWrapper POST.
Definition put := requestWrapper PUT.
Definition patch := requestWrapper PATCH.
Definition del := requestWrapper DELETE.

(** The five exported verb functions, to quantify over them. *)
Inductive Verb := Get | Post | Put | Patch | Del.

Definition verb_method (v : Verb) : Method :=
  match v with
  | Get => GET | Post => POST | Put => PUT | Patch => PATCH | Del => DELETE
  end.

Definition call (v : Verb) :=
  match v with
  | Get => get | Post => post | Put => put | Patch => patch | Del => del
  end.

(** What a call of a verb function builds: the value of
    [decorateRequest({method, url, data, options, cb})] in world [w]. *)
Definition built (v : Verb) (url : string) (data options : value)
    (cb : option (value → value)) (w : World) : Decorated :=
  (run (decorateRequest (verb_method v) url
          (or_default data VNull) (or_default options (VObj ∅))
          (default (λ a, a) cb)) w).1.

(** How the [fetch] of that call settles. *)
Definition settled (v : Verb) (url : string) (data options : value)
    (cb : option (value → value)) (w : World) : Promise Response :=
  let d := built v url data options cb w in
  fetch (URL d) (request d).

(** The closed form of the built request: the headers the auth decoration
    and the payload decoration contribute, and the body. *)
Definition auth_headers (url : string) (tok : option string) : gmap string value :=
  if negb (isRequestToExternalResource url) && token_truthy tok
  then {[ "Authorization" := VStr (jwt tok) ]}
  else ∅.

Definition content_headers (data : value) : gmap string value :=
  if instanceof_FormData data
  then ∅
  else {[ "Content-Type" := VStr "application/json; charset=UTF-8" ]}.

Definition body_fields (data : value) : gmap string value :=
  if truthy data then {[ "body" := VStr (JSON_stringify data) ]} else ∅.

End Client.

(** ** Reading the trace of a run *)

Fixpoint count_resets (es : list event) : nat :=
  match es with
  | [] => 0%nat
  | ResetLocalToken :: es' => S (count_resets es')
  | _ :: es' => count_resets es'
  end.

(** The requests handed to [fetch], oldest first. *)
Fixpoint fetched (es : list event) : list (string * value) :=
  match es with
  | [] => []
  | Fetch U r :: es' => (U, r) :: fetched es'
  | _ :: es' => fetched es'
  end.

(** ** The specification's vocabulary *)

(** [needle] occurs somewhere in [s]. *)
Definition contains (needle s : string) : Prop :=
  ∃ pre suf, s = pre +:+ needle +:+ suf.

(** The "absolute-URL pattern ([scheme://])" of the specification: a scheme
    name (a letter, then letters, digits, [+], [-] or [.]) followed by
    [://], at the start of the URL. *)
Definition is_letter (c : Ascii.ascii) : bool :=
  let n := Ascii.nat_of_ascii c in
  ((65 <=? n) && (n <=? 90) || (97 <=? n) && (n <=? 122))%nat.

Definition is_scheme_char (c : Ascii.ascii) : bool :=
  let n := Ascii.nat_of_ascii c in
  (is_letter c || (48 <=? n) && (n <=? 57) || (n =? 43) || (n =? 45) || (n =? 46))%nat.

Fixpoint scheme_tail (s : string) : bool :=
  starts_with "://" s ||
  match s with
  | EmptyString => false
  | String c s' => is_scheme_char c && scheme_tail s'
  end.

Definition matches_scheme_pattern (url : string) : bool :=
  match url with
  | EmptyString => false
  | String c s => is_letter c && scheme_tail s
  end.

(** URL resolution as the specification words it: verbatim for a URL that
    matches [scheme://], prefixed with the base origin otherwise. *)
Definition resolved_as_specified (base url resolved : string) : Prop :=
  if matches_scheme_pattern url then resolved = url else resolved = base +:+ url.

(** The [Authorization] header as the specification words it, with its
    glossary: an external resource is a URL with an explicit [scheme://]
    prefix and never receives the header; an internal resource is a URL
    without a scheme and carries [JWT <token>] when a token is present. *)
Definition authorization_as_specified (url : string) (tok : option string)
    (r : value) : Prop :=
  if matches_scheme_pattern url
  then header "Authorization" r = None
  else ∀ t, tok = Some t → t ≠ "" →
         header "Authorization" r = Some (VStr ("JWT " +:+ t)).



(** A Result that reports failure: its [ok] is [false]. *)
Definition reports_failure (v : value) : Prop :=
  field "ok" v = Some (VBool false).

(** Payload decoration as the specification words it, for the payload
    [data] and a request [r]. *)
Definition payload_decorated_as_specified (stringify : value → string)
    (data r : value) : Prop :=
  if instanceof_FormData data then
    header "Content-Type" r = None ∧ field "body" r ≠ Some (VStr (stringify data))
  else if truthy data then
    field "body" r = Some (VStr (stringify data)) ∧
    header "Content-Type" r = Some (VStr "application/json; charset=UTF-8")
  else
    field "body" r = None ∧ header "Content-Type" r = None.

(** The merge order of the specification, ending with the caller's
    [options]: every property set in [options] is in the request. *)
Definition options_reach_request (options r : value) : Prop :=
  ∀ k x, field k options = Some x → is_Some (field k r).

(** ** A platform to run the client on *)

Definition dquote : string := String (Ascii.ascii_of_nat 34) EmptyString.

(** [JSON.stringify] for values whose strings need no escaping: an
    [undefined] property is left out, an [undefined] item becomes [null],
    and an object with no enumerable property of its own ([FormData],
    [Error]) becomes the empty object. *)
Fixpoint plain_stringify (v : value) : string :=
  match v with
  | VUndefined | VNull => "null"
  | VBool true => "true"
  | VBool false => "false"
  | VNum n => pretty n
  | VStr s => dquote +:+ s +:+ dquote
  | VArr items =>
      "[" +:+
      (fix go (items : list value) : string :=
         match items with
         | [] => ""
         | [x] => plain_stringify x
         | x :: items' => plain_stringify x +:+ "," +:+ go items'
         end) items +:+ "]"
  | VObj fields =>
      "{" +:+
      map_fold (λ k x acc,
          match x with
          | VUndefined => acc
          | _ =>
              (if String.eqb acc "" then "" else acc +:+ ",") +:+
              dquote +:+ k +:+ dquote +:+ ":" +:+ plain_stringify x
          end) "" fields +:+ "}"
  | VFormData _ | VError _ => "{}"
  end.

Definition example_base : string := "https://api.example.com".

(** A server that answers every request with the same response. *)
Definition answering (status : Z) (body : Promise value)
    : string → value → Promise Response :=
  λ _ _, Fulfilled {| status := status;
                      ok := (200 <=? status) && (status <? 300);
                      json := body |}.

(** No network: [fetch] rejects. *)
Definition offline : string → value → Promise Response :=
  λ _ _, Rejected (VError "Failed to fetch").

Definition signed_in : World := {| token := Some "s3cr3t"; events := [] |}.
Definition anonymous : World := {| token := None; events := [] |}.

(** A payload, and a 401 whose body is empty. *)
Definition credentials : value :=
  VObj {[ "user" := VStr "ada"; "password" := VStr "pw" ]}.

Definition unauthorized : Response :=
  {| status := 401; ok := false; json := Rejected (VError "Unexpected end of JSON input") |}.

Definition run_example (fetch : string → value → Promise Response) (v : Verb)
    (url : string) (data options : value) (w : World) : Promise value * World :=
  run (call example_base plain_stringify fetch v url data options None) w.

(** * The App container (common/containers/App)

    The component reads its props, dispatches store actions, sets timers
    and registers a listener on [window].  Its state is the part of the
    page these touch. *)

(** The actions the container dispatches: what the creators of
    actions/layout and actions/auth, and [push] of react-router-redux,
    return. *)
Inductive action :=
| CLOSE_SIDEBAR
| OPEN_SIDEBAR
| WINDOW_RESIZE (innerWidth : Z)
| LOGOUT_AUTH
| push (path : string).

(** [window], the actions the store has received, the variable [resizer]
    of [mapDispatchToProps], the timers that are pending (each with its
    delay and the action its callback dispatches), the id the next timer
    gets, and the events of [window] that have a listener. *)
Record UI := {
  window : value;
  dispatched : list action;
  resizer : option nat;
  timers : gmap nat (Z * action);
  next_timer : nat;
  listeners : list string;
}.

(** The store's [dispatch]. *)
Definition store_dispatch (a : action) (ui : UI) : UI :=
  {| window := window ui; dispatched := dispatched ui ++ [a];
     resizer := resizer ui; timers := timers ui;
     next_timer := next_timer ui; listeners := listeners ui |}.

(** [clearTimeout(id)]: an id that is [undefined], or of a timer that has
    run or was cleared, clears nothing. *)
Definition clearTimeout (id : option nat) (ui : UI) : UI :=
  match id with
  | None => ui
  | Some i =>
      {| window := window ui; dispatched := dispatched ui;
         resizer := resizer ui; timers := delete i (timers ui);
         next_timer := next_timer ui; listeners := listeners ui |}
  end.

(** [setTimeout(() => dispatch(a), delay)]: the id of the new timer, which
    no timer had before. *)
Definition setTimeout (a : action) (delay : Z) (ui : UI) : nat * UI :=
  (next_timer ui,
   {| window := window ui; dispatched := dispatched ui;
      resizer := resizer ui;
      timers := <[next_timer ui := (delay, a)]> (timers ui);
      next_timer := S (next_timer ui); listeners := listeners ui |}).

(** [resizer = id]. *)
Definition set_resizer (id : nat) (ui : UI) : UI :=
  {| window := window ui; dispatched := dispatched ui;
     resizer := Some id; timers := timers ui;
     next_timer := next_timer ui; listeners := listeners ui |}.

(** [window.addEventListener(type, handleWindowResize)]: a listener that
    is registered already is not registered again. *)
Definition addEventListener (type : string) (ui : UI) : UI :=
  {| window := window ui; dispatched := dispatched ui;
     resizer := resizer ui; timers := timers ui;
     next_timer := next_timer ui;
     listeners := if bool_decide (type ∈ listeners ui)
                  then listeners ui else listeners ui ++ [type] |}.

(** [a.k] on a route: [undefined] when the route has no property [k]. *)
Definition prop_of (k : string) (a : gmap string value) : value :=
  default VUndefined (a !! k).

(** What [mapDispatchToProps] returns. *)
Record DispatchProps := {
  closeSidebar : UI → UI;
  logout : UI → UI;
  toggleSidebar : UI → UI;
  checkAuthLogic : string → bool → UI → UI;
  handleWindowResize : UI → UI;
}.

(** The props of [App]: the routes, [location.pathname], the props that
    [mapStateToProps] selects and those of [mapDispatchToProps]. *)
Record Props := {
  routes : list (gmap string value);
  pathname : string;
  sidebarOpened : bool;
  isLoggedIn : bool;
  isMobile : value;
  handlers : DispatchProps;
}.

(** What [render] returns: elements with their props, and the [children]
    the parent passed. *)
Inductive prop_value :=
| PValue (v : value)
| PRouting (routing : list (gmap string value))
| PHandler (f : UI → UI).

Inductive element :=
| Element (type : string) (props : gmap string prop_value) (children : list element)
| Children.

(** The props of the elements of one type, in document order. *)
Fixpoint props_of (t : string) (e : element) : list (gmap string prop_value) :=
  match e with
  | Children => []
  | Element type props children =>
      (if String.eqb type t then [props] else []) ++
      (fix go (es : list element) : list (gmap string prop_value) :=
         match es with
         | [] => []
         | e' :: es' => props_of t e' ++ go es'
         end) children
  end.

(** How often the [children] of the parent are rendered. *)
Fixpoint count_children (e : element) : nat :=
  match e with
  | Children => 1%nat
  | Element _ _ children =>
      (fix go (es : list element) : nat :=
         match es with
         | [] => 0%nat
         | e' :: es' => (count_children e' + go es')%nat
         end) children
  end.

Section App.

(** [getWindowInnerWidth] of const, which is not among the sources. *)
Variable getWindowInnerWidth : value → Z.
(** [matchPath] of react-router: a match object, or [null]. *)
Variable matchPath : string → gmap string value → value.
(** [process.env.BROWSER]. *)
Variable BROWSER : bool.

Definition mapDispatchToProps (dispatch : action → UI → UI) : DispatchProps :=
  {| closeSidebar := dispatch CLOSE_SIDEBAR;
     logout := dispatch LOGOUT_AUTH;
     toggleSidebar := dispatch OPEN_SIDEBAR;
     checkAuthLogic := λ path isLoggedIn ui,
       let authPath := "/auth" in
       let homePath := "/" in
       if isLoggedIn && String.eqb path authPath
       then dispatch (push homePath) ui
       else ui;
     handleWindowResize := λ ui,
       let ui := clearTimeout (resizer ui) ui in
       let innerWidth := getWindowInnerWidth (window ui) in
       let '(id, ui) := setTimeout (WINDOW_RESIZE innerWidth) 150 ui in
       set_resizer id ui |}.

Definition checkAppAuthLogic (this : Props) (isLoggedIn : bool) : UI → UI :=
  let path := pathname this in
  checkAuthLogic (handlers this) path isLoggedIn.

Definition componentWillMount (this : Props) (ui : UI) : UI :=
  let isLoggedIn := isLoggedIn this in
  let ui :=
    if BROWSER
    then addEventListener "resize" (handleWindowResize (handlers this) ui)
    else ui in
  checkAppAuthLogic this isLoggedIn ui.

Definition componentWillReceiveProps (this nextProps : Props) : UI → UI :=
  checkAppAuthLogic this (isLoggedIn nextProps).

Definition getSidebarRouting (this : Props) : list (gmap string value) :=
  map (λ a : gmap string value,
         let path := prop_of "path" a in
         let name := prop_of "name" a in
         let icon := prop_of "icon" a in
         let external := prop_of "external" a in
         let strict := prop_of "strict" a in
         let exact := prop_of "exact" a in
         ({[ "path" := path; "name" := name; "icon" := icon;
             "external" := external; "strict" := strict; "exact" := exact ]}
          : gmap string value))
      (List.filter (λ a, truthy (prop_of "sidebarVisible" a)) (routes this)).

Definition getPageTitle (this : Props) (pathname : string) : value :=
  let currentRoute : gmap string value :=
    default ∅ (List.find (λ a, truthy (matchPath pathname a)) (routes this)) in
  let name := prop_of "name" currentRoute in
  if truthy name then name else VStr "404".

Definition render (this : Props) : element :=
  let sidebarRouting := getSidebarRouting this in
  let title := getPageTitle this (pathname this) in
  let sidebarProps : gmap string prop_value :=
    {[ "isMobile" := PValue (isMobile this);
       "logout" := PHandler (logout (handlers this));
       "open" := PValue (VBool (sidebarOpened this));
       "routing" := PRouting sidebarRouting ]} in
  let headerProps : gmap string prop_value :=
    {[ "toggleSidebar" := PHandler (toggleSidebar (handlers this));
       "title" := PValue title;
       "isLoggedIn" := PValue (VBool (isLoggedIn this));
       "isMobile" := PValue (isMobile this) ]} in
  let dimmerProps : gmap string prop_value :=
    {[ "active" := PValue (VBool (isLoggedIn this && sidebarOpened this));
       "page" := PValue (VBool true);
       "onClick" := PHandler (closeSidebar (handlers this)) ]} in
  let SidebarSemanticPusherStyledPatch :=
    if negb (truthy (isMobile this)) && isLoggedIn this
    then "SidebarSemanticPusherStyled.extend`max-width: calc(100% - 150px);`"
    else "SidebarSemanticPusherStyled" in
  Element "PageLayout" ∅
    [Element "SidebarSemanticPushableStyled" ∅
       ((if isLoggedIn this then [Element "Sidebar" sidebarProps []] else []) ++
        [Element SidebarSemanticPusherStyledPatch ∅
           [Element "StyledDimmer" dimmerProps [];
            Element "Header" headerProps [];
            Element "MainLayout" ∅
              [Element "MainContent" ∅
                 [Element "MainContainer" {[ "id" := PValue (VStr "main-container") ]}
                    [Children]];
               Element "Footer" ∅ []]]])].

(** The app as it is exported: its handlers are those of
    [mapDispatchToProps] on the store's [dispatch]. *)
Definition connected (routes : list (gmap string value)) (pathname : string)
    (sidebarOpened isLoggedIn : bool) (isMobile : value) : Props :=
  {| routes := routes; pathname := pathname; sidebarOpened := sidebarOpened;
     isLoggedIn := isLoggedIn; isMobile := isMobile;
     handlers := mapDispatchToProps store_dispatch |}.

(** What happens to a mounted app: the window is resized, which runs the
    listener if there is one, or a pending timer runs its callback. *)
Inductive ui_event :=
| WindowResized (w : value)
| TimerFired (id : nat).

Definition with_window (w : value) (ui : UI) : UI :=
  {| window := w; dispatched := dispatched ui; resizer := resizer ui;
     timers := timers ui; next_timer := next_timer ui;
     listeners := listeners ui |}.

Definition fire (dispatch : action → UI → UI) (id : nat) (ui : UI) : UI :=
  match timers ui !! id with
  | None => ui
  | Some (_, a) => dispatch a (clearTimeout (Some id) ui)
  end.

Definition react (e : ui_event) (ui : UI) : UI :=
  match e with
  | WindowResized w =>
      let ui := with_window w ui in
      if bool_decide ("resize" ∈ listeners ui)
      then handleWindowResize (mapDispatchToProps store_dispatch) ui
      else ui
  | TimerFired id => fire store_dispatch id ui
  end.

End App.

(** Every pending timer is the one [resizer] names, was set with a delay
    of 150 and has an id below that of the next timer. *)
Definition only_resizer_pending (ui : UI) : Prop :=
  ∀ id t, timers ui !! id = Some t →
    resizer ui = Some id ∧ t.1 = 150 ∧ (id < next_timer ui)%nat.

(** An app that was just loaded: nothing dispatched, no timer, no
    listener. *)
Definition loaded (w : value) : UI :=
  {| window := w; dispatched := []; resizer := None; timers := ∅;
     next_timer := 1; listeners := [] |}.

(** A window, its width as [window.innerWidth], and a [matchPath] that
    compares the pathname with the [path] of the route. *)
Definition window_of_width (n : Z) : value := VObj {[ "innerWidth" := VNum n ]}.

Definition innerWidth_of (w : value) : Z :=
  match field "innerWidth" w with
  | Some (VNum n) => n
  | _ => 0
  end.

Definition exact_path (pathname : string) (a : gmap string value) : value :=
  match prop_of "path" a with
  | VStr p => if String.eqb p pathname then VObj {[ "path" := VStr p ]} else VNull
  | _ => VNull
  end.

Definition example_routes : list (gmap string value) :=
  [ {[ "path" := VStr "/"; "name" := VStr "Dashboard"; "sidebarVisible" := VBool true;
       "exact" := VBool true ]};
    {[ "path" := VStr "/auth"; "name" := VStr "Auth" ]};
    {[ "path" := VStr "/hidden" ]} ].

(** A logged-in user at [/auth], on a desktop, and the page after the app
    was mounted in a window 1024 wide. *)
Definition example_app : Props :=
  connected innerWidth_of example_routes "/auth" false true (VBool false).

Definition mounted_page : UI :=
  componentWillMount true example_app (loaded (window_of_width 1024)).

(** * Properties *)

(** ** Traces *)

Lemma count_resets_app es es' :
  count_resets (es ++ es') = (count_resets es + count_resets es')%nat.
Proof.
  induction es as [|e es IH]; [done|].
  destruct e; simpl; rewrite IH; done.
Qed.

Lemma fetched_app es es' : fetched (es ++ es') = fetched es ++ fetched es'.
Proof.
  induction es as [|e es IH]; [done|].
  destruct e; simpl; rewrite IH; done.
Qed.

(** ** The regular expression *)

Lemma string_app_empty (s : string) : "" +:+ s = s.
Proof. reflexivity. Qed.

Lemma string_app_cons c (p s : string) : String c p +:+ s = String c (p +:+ s).
Proof. reflexivity. Qed.

Lemma starts_with_spec p s : starts_with p s = true ↔ ∃ suf, s = p +:+ suf.
Proof.
  revert s. induction p as [|a p IH]; intros s; simpl.
  - split; [eauto | done].
  - destruct s as [|b s].
    + split; [done | intros [suf Hs]; discriminate].
    + destruct (Ascii.eqb_spec a b) as [-> | Hab].
      * rewrite IH. split; intros [suf Hs]; exists suf.
        -- by rewrite Hs.
        -- by injection Hs.
      * split; [done | intros [suf Hs]; injection Hs as Hc _; congruence].
Qed.

Lemma regexp_test_spec matches_here s :
  regexp_test matches_here s = true
  ↔ ∃ pre suf, s = pre +:+ suf ∧ matches_here suf = true.
Proof.
  induction s as [|c s IH]; simpl.
  - rewrite orb_false_r. split.
    + intros H. by exists "", "".
    + intros (pre & suf & Hs & Hm).
      destruct pre; [|discriminate]. rewrite string_app_empty in Hs. by subst.
  - rewrite orb_true_iff, IH. split.
    + intros [H | (pre & suf & -> & Hm)].
      * by exists "", (String c s).
      * by exists (String c pre), suf.
    + intros (pre & suf & Hs & Hm). destruct pre as [|c' pre].
      * left. rewrite string_app_empty in Hs. by subst.
      * right. rewrite string_app_cons in Hs. injection Hs as -> ->. eauto.
Qed.

(** The test of [decorateRequest] is a substring search for one of the two
    scheme prefixes. *)
Lemma isRequestToExternalResource_spec url :
  isRequestToExternalResource url = true
  ↔ contains "http://" url ∨ contains "https://" url.
Proof.
  unfold isRequestToExternalResource, contains, http_or_https_here.
  rewrite regexp_test_spec. split.
  - intros (pre & suf & -> & Hm). apply orb_true_iff in Hm as [Hm | Hm];
      apply starts_with_spec in Hm as [rest ->]; [left | right]; eauto.
  - intros [(pre & suf & ->) | (pre & suf & ->)].
    + exists pre, ("http://" +:+ suf). split; [done|].
      apply orb_true_iff; left. apply starts_with_spec; eauto.
    + exists pre, ("https://" +:+ suf). split; [done|].
      apply orb_true_iff; right. apply starts_with_spec; eauto.
Qed.

Lemma not_external_spec url :
  isRequestToExternalResource url = false
  ↔ ¬ contains "http://" url ∧ ¬ contains "https://" url.
Proof.
  rewrite <- not_true_iff_false, isRequestToExternalResource_spec. tauto.
Qed.

(** ** The pieces of the pipeline *)

Section Pieces.

Variable BASE_API : string.
Variable JSON_stringify : value → string.
Variable fetch : string → value → Promise Response.

Lemma call_requestWrapper v :
  call BASE_API JSON_stringify fetch v
  = requestWrapper BASE_API JSON_stringify fetch (verb_method v).
Proof. by destruct v. Qed.

(** [decorateRequest] reads the token and writes one diagnostic line. *)
Lemma decorateRequest_world m url data options cb w :
  ∃ line,
    (run (decorateRequest BASE_API JSON_stringify m url data options cb) w).2
    = {| token := token w;
         events := events w ++ [ConsoleLog line
           (request (run (decorateRequest BASE_API JSON_stringify m url data options cb) w).1)] |}.
Proof.
  unfold decorateRequest, run, mbind, M_bind, getLocalToken, console_log, emit.
  destruct (isRequestToExternalResource url); simpl; eauto.
Qed.

Lemma decorateRequest_URL m url data options cb w :
  URL (run (decorateRequest BASE_API JSON_stringify m url data options cb) w).1
  = if isRequestToExternalResource url then url else BASE_API +:+ url.
Proof.
  unfold decorateRequest, run, mbind, M_bind, getLocalToken, console_log, emit.
  destruct (isRequestToExternalResource url); done.
Qed.

(** The request in closed form: [_.merge] of the defaults, the auth
    decoration and the payload decoration, worked out.  [options] and [cb]
    do not occur on the right. *)
Lemma decorateRequest_request m url data options cb w :
  request (run (decorateRequest BASE_API JSON_stringify m url data options cb) w).1
  = VObj (<["method" := VStr (method_name m)]>
           (<["headers" := VObj (auth_headers url (token w) ∪ content_headers data)]>
              (body_fields JSON_stringify data))).
Proof.
  unfold decorateRequest, run, mbind, M_bind, getLocalToken, console_log, emit,
    getHeaderDataDecoration, auth_headers, content_headers, body_fields.
  destruct (isRequestToExternalResource url), (token_truthy (token w)),
    (truthy data), (instanceof_FormData data);
    simpl negb; simpl andb; cbv iota; simpl fst; simpl request;
    vm_compute; reflexivity.
Qed.

(** [checkStatus] hands the response on and clears the token on 401 and
    403 only. *)
Lemma checkStatus_run res w :
  run (checkStatus res) w
  = (res, if bool_decide (status res = 401 ∨ status res = 403)
          then {| token := None; events := events w ++ [ResetLocalToken] |}
          else w).
Proof.
  unfold checkStatus, run, mbind, M_bind, mret, M_ret, resetLocalToken.
  case_bool_decide as Hs.
  - assert ((status res =? 403) || (status res =? 401) = true) as ->
      by (destruct Hs as [-> | ->]; done).
    destruct Hs as [-> | ->]; done.
  - assert ((status res =? 403) || (status res =? 401) = false) as ->.
    { apply orb_false_intro; apply Z.eqb_neq; intros E; apply Hs; auto. }
    repeat (match goal with |- context [if ?b then _ else _] => destruct b end);
      done.
Qed.

(** [parseJSON] has no effect, and its result does not depend on the world. *)
Lemma parseJSON_run res w :
  run (parseJSON res) w
  = (match json res with
     | Rejected _ =>
         if status res =? 204
         then Fulfilled (VObj {[ "ok" := VBool true; "data" := VObj ∅ ]})
         else Fulfilled (VObj {[ "ok" := VBool false ]})
     | Fulfilled j => Fulfilled (VObj {[ "ok" := VBool (ok res); "data" := j ]})
     end, w).
Proof.
  unfold parseJSON, run.
  destruct (json res) as [j|e].
  - assert (∀ b, ({[ "data" := j; "ok" := VBool b ]} : gmap string value)
                 = {[ "ok" := VBool b; "data" := j ]}) as Hswap.
    { intros b. apply insert_insert_ne. done. }
    destruct (ok res); simpl; unfold mret, M_ret; by rewrite Hswap.
  - destruct (status res =? 204); done.
Qed.

(** The whole pipeline of a verb function, by the way its [fetch] settles. *)
Lemma call_run v url data options cb w :
  let d := built BASE_API JSON_stringify v url data options cb w in
  ∃ line,
    let w2 := {| token := token w;
                 events := events w ++ [ConsoleLog line (request d);
                                        Fetch (URL d) (request d)] |} in
    run (call BASE_API JSON_stringify fetch v url data options cb) w
    = match settled BASE_API JSON_stringify fetch v url data options cb w with
      | Fulfilled res => run (parseJSON res) (run (checkStatus res) w2).2
      | Rejected err =>
          (Fulfilled err,
           {| token := token w; events := events w2 ++ [ConsoleError err] |})
      end.
Proof.
  intros d. subst d. rewrite call_requestWrapper.
  unfold settled, built.
  destruct (decorateRequest_world (verb_method v) url (or_default data VNull)
              (or_default options (VObj ∅)) (default (λ a, a) cb) w) as [line Hw].
  exists line. cbv zeta.
  unfold requestWrapper, run at 3. unfold mbind at 1, M_bind at 1.
  unfold run in *.
  destruct (decorateRequest _ _ _ _ _ _ _ w) as [d w1].
  simpl fst in *; simpl snd in *. subst w1.
  unfold catch_, then_, returning, do_fetch, console_error, emit,
    mbind, M_bind, mret, M_ret.
  simpl token; simpl events. rewrite <- app_assoc. simpl app.
  destruct (fetch (URL d) (request d)) as [res|err]; [|done].
  pose proof (checkStatus_run res
    {| token := token w;
       events := events w ++ [ConsoleLog line (request d); Fetch (URL d) (request d)] |})
    as Hc.
  unfold run in Hc. rewrite Hc. simpl snd.
  pose proof (parseJSON_run res) as Hp. unfold run in Hp. rewrite !Hp.
  destruct (json res); [done|]. destruct (status res =? 204); done.
Qed.

(** A call hands exactly one request to [fetch]: the one it built. *)
Lemma call_fetched v url data options cb w :
  let d := built BASE_API JSON_stringify v url data options cb w in
  fetched (events (run (call BASE_API JSON_stringify fetch v url data options cb) w).2)
  = fetched (events w) ++ [(URL d, request d)].
Proof.
  intros d. subst d.
  destruct (call_run v url data options cb w) as [line Hrun].
  cbv zeta in Hrun. rewrite Hrun.
  destruct (settled _ _ _ _ _ _ _ _ _) as [res|err].
  - rewrite parseJSON_run, checkStatus_run. simpl snd.
    case_bool_decide; simpl events; rewrite !fetched_app; simpl;
      by rewrite ?app_nil_r.
  - simpl. rewrite !fetched_app. simpl. by rewrite app_nil_r.
Qed.

(** A call never rejects. *)
Lemma call_fulfils v url data options cb w :
  ∃ r, (run (call BASE_API JSON_stringify fetch v url data options cb) w).1
       = Fulfilled r.
Proof.
  destruct (call_run v url data options cb w) as [line Hrun].
  cbv zeta in Hrun. rewrite Hrun.
  destruct (settled _ _ _ _ _ _ _ _ _) as [res|err]; [|by eexists].
  rewrite parseJSON_run. simpl fst.
  destruct (json res); [eauto|]. destruct (status res =? 204); eauto.
Qed.

End Pieces.

(** ** The built request, field by field *)

Section Built.

Variable BASE_API : string.
Variable JSON_stringify : value → string.

Lemma built_URL v url data options cb w :
  URL (built BASE_API JSON_stringify v url data options cb w)
  = if isRequestToExternalResource url then url else BASE_API +:+ url.
Proof. unfold built. apply decorateRequest_URL. Qed.

Lemma built_header k v url data options cb w :
  header k (request (built BASE_API JSON_stringify v url data options cb w))
  = (auth_headers url (token w) ∪ content_headers (or_default data VNull)) !! k
      ≫= Some.
Proof.
  unfold built. rewrite decorateRequest_request.
  unfold header, field.
  rewrite lookup_insert_ne by done. rewrite lookup_insert_eq. simpl.
  by destruct (_ !! k).
Qed.

Lemma built_Authorization v url data options cb w :
  header "Authorization" (request (built BASE_API JSON_stringify v url data options cb w))
  = if negb (isRequestToExternalResource url) && token_truthy (token w)
    then Some (VStr (jwt (token w)))
    else None.
Proof.
  rewrite built_header. unfold auth_headers, content_headers.
  destruct (negb (isRequestToExternalResource url) && token_truthy (token w)),
    (instanceof_FormData (or_default data VNull)); reflexivity.
Qed.

Lemma built_Content_Type v url data options cb w :
  header "Content-Type" (request (built BASE_API JSON_stringify v url data options cb w))
  = if instanceof_FormData (or_default data VNull)
    then None
    else Some (VStr "application/json; charset=UTF-8").
Proof.
  rewrite built_header. unfold auth_headers, content_headers.
  destruct (negb (isRequestToExternalResource url) && token_truthy (token w)),
    (instanceof_FormData (or_default data VNull)); reflexivity.
Qed.

Lemma built_body v url data options cb w :
  field "body" (request (built BASE_API JSON_stringify v url data options cb w))
  = if truthy (or_default data VNull)
    then Some (VStr (JSON_stringify (or_default data VNull)))
    else None.
Proof.
  unfold built. rewrite decorateRequest_request. unfold field, body_fields.
  rewrite !lookup_insert_ne by done.
  destruct (truthy (or_default data VNull)); reflexivity.
Qed.

(** The properties of the request are [method], [headers] and, with a
    payload, [body]: nothing of [options] is among them. *)
Lemma built_fields k v url data options cb w :
  is_Some (field k (request (built BASE_API JSON_stringify v url data options cb w)))
  → k = "method" ∨ k = "headers" ∨ k = "body".
Proof.
  unfold built. rewrite decorateRequest_request. unfold field, body_fields.
  destruct (decide (k = "method")) as [->|Hm]; [auto|].
  destruct (decide (k = "headers")) as [->|Hh]; [auto|].
  rewrite !lookup_insert_ne by done.
  destruct (truthy (or_default data VNull)).
  - destruct (decide (k = "body")) as [->|Hb]; [auto|].
    rewrite lookup_singleton_ne by done. by intros [? ?].
  - rewrite lookup_empty. by intros [? ?].
Qed.

End Built.

(** ** The contract of the verb functions *)

Section Contract.

Variable BASE_API : string.
Variable JSON_stringify : value → string.
Variable fetch : string → value → Promise Response.

Local Abbreviation call' := (call BASE_API JSON_stringify fetch).
Local Abbreviation built' := (built BASE_API JSON_stringify).
Local Abbreviation settled' := (settled BASE_API JSON_stringify fetch).

(** C1.  For a request issued through any of the five verb functions whose
    [fetch] brings a response: [resetLocalToken] is invoked exactly once
    when the status of the response is 401 or 403, and not at all for any
    other status. *)
Theorem token_evicted_exactly_on_401_403 v url data options cb w res :
  settled' v url data options cb w = Fulfilled res →
  count_resets (events (run (call' v url data options cb) w).2)
  = (count_resets (events w)
     + if bool_decide (status res = 401 ∨ status res = 403)%Z then 1 else 0)%nat.
Proof.
  intros Hres.
  destruct (call_run BASE_API JSON_stringify fetch v url data options cb w)
    as [line Hrun].
  cbv zeta in Hrun. rewrite Hrun, Hres, parseJSON_run, checkStatus_run.
  simpl snd. case_bool_decide; simpl events.
  - rewrite !count_resets_app. simpl. lia.
  - rewrite count_resets_app. simpl. lia.
Qed.

(** C2, as amended.  Every call of a verb function whose request is built
    and whose [fetch] settles hands that request to [fetch], settles with
    exactly one value and does not reject.  A transport failure is caught,
    logged with [console.error] and returned as the error value itself; a
    body that cannot be parsed gives [{ok: false}], except at status 204,
    where it gives [{ok: true, data: {}}]; a body that parses gives
    [{ok: res.ok, data: body}].  (The calls of the model are those whose
    request is built: see [JSON_stringify].) *)
Theorem call_settles_with_one_value v url data options cb w :
  let d := built' v url data options cb w in
  fetched (events (run (call' v url data options cb) w).2)
  = fetched (events w) ++ [(URL d, request d)]
  ∧ ∃ r, (run (call' v url data options cb) w).1 = Fulfilled r ∧
      match settled' v url data options cb w with
      | Rejected err =>
          r = err ∧
          last (events (run (call' v url data options cb) w).2)
          = Some (ConsoleError err)
      | Fulfilled res =>
          match json res with
          | Rejected _ =>
              r = if status res =? 204
                  then VObj {[ "ok" := VBool true; "data" := VObj ∅ ]}
                  else VObj {[ "ok" := VBool false ]}
          | Fulfilled j => r = VObj {[ "ok" := VBool (ok res); "data" := j ]}
          end
      end.
Proof.
  intros d. subst d. split; [apply call_fetched|].
  destruct (call_run BASE_API JSON_stringify fetch v url data options cb w)
    as [line Hrun].
  cbv zeta in Hrun. rewrite Hrun.
  destruct (settled' v url data options cb w) as [res|err].
  - rewrite parseJSON_run. simpl fst.
    destruct (json res) as [j|e]; [eauto|].
    destruct (status res =? 204); eauto.
  - exists err. simpl. split; [done|]. split; [done|].
    by rewrite last_snoc.
Qed.

(** C4, as amended.  In the built request: a [FormData] payload gets no
    [Content-Type] header; every other payload, and no payload at all, gets
    [Content-Type: application/json; charset=UTF-8]; a payload that is
    present and no [FormData] is the body as [JSON.stringify(data)]; without
    a payload there is no body. *)
Theorem payload_decoration_of_built_request v url data options cb w :
  let data' := or_default data VNull in
  let r := request (built' v url data options cb w) in
  (instanceof_FormData data' = true → header "Content-Type" r = None)
  ∧ (instanceof_FormData data' = false →
     header "Content-Type" r = Some (VStr "application/json; charset=UTF-8"))
  ∧ (instanceof_FormData data' = false → truthy data' = true →
     field "body" r = Some (VStr (JSON_stringify data')))
  ∧ (truthy data' = false → field "body" r = None).
Proof.
  intros data' r. subst r data'.
  rewrite built_Content_Type, built_body.
  split_and!.
  - by intros ->.
  - by intros ->.
  - by intros _ ->.
  - by intros ->.
Qed.


(** C6.  [parseJSON]: when parsing the body fails and the status is 204
    the result is [{ok: true, data: {}}]; when parsing fails and the status
    is not 204 it is [{ok: false}]; when parsing succeeds it is
    [{ok: res.ok, data: parsed}], whatever [res.ok] is. *)
Theorem parseJSON_normalises res w :
  (∀ e, json res = Rejected e → status res = 204 →
     run (parseJSON res) w
     = (Fulfilled (VObj {[ "ok" := VBool true; "data" := VObj ∅ ]}), w))
  ∧ (∀ e, json res = Rejected e → status res ≠ 204 →
     run (parseJSON res) w = (Fulfilled (VObj {[ "ok" := VBool false ]}), w))
  ∧ (∀ j, json res = Fulfilled j →
     run (parseJSON res) w
     = (Fulfilled (VObj {[ "ok" := VBool (ok res); "data" := j ]}), w)).
Proof.
  rewrite parseJSON_run. split_and!.
  - intros e -> ->. done.
  - intros e -> Hs. apply Z.eqb_neq in Hs. by rewrite Hs.
  - intros j ->. done.
Qed.

(** C7, as amended.  A URL that contains [http://] or [https://] anywhere
    is used unchanged; every other URL is prefixed with the base API
    origin.  The resolved URL is the one handed to [fetch]. *)
Theorem URL_resolution v url data options cb w :
  let d := built' v url data options cb w in
  (contains "http://" url ∨ contains "https://" url → URL d = url)
  ∧ (¬ contains "http://" url → ¬ contains "https://" url →
     URL d = BASE_API +:+ url)
  ∧ fetched (events (run (call' v url data options cb) w).2)
    = fetched (events w) ++ [(URL d, request d)].
Proof.
  intros d. subst d. split_and!.
  - intros H. apply isRequestToExternalResource_spec in H.
    by rewrite built_URL, H.
  - intros H1 H2. rewrite built_URL.
    assert (isRequestToExternalResource url = false) as ->; [|done].
    apply not_external_spec. done.
  - apply call_fetched.
Qed.

(** C8, as amended.  A request whose URL contains neither [http://] nor
    [https://], made while the store holds a token that is not empty,
    carries [Authorization: JWT <token>]; a request whose URL contains
    [http://] or [https://] never has an [Authorization] header, whatever
    the store holds; and when the store holds no token, or the empty
    string, the request that is built has no [Authorization] header, it
    is handed to [fetch] all the same, and the call settles with a
    value. *)
Theorem authorization_header v url data options cb w :
  let d := built' v url data options cb w in
  (¬ contains "http://" url → ¬ contains "https://" url →
   ∀ t, token w = Some t → t ≠ "" →
     header "Authorization" (request d) = Some (VStr ("JWT " +:+ t)))
  ∧ (contains "http://" url ∨ contains "https://" url →
     header "Authorization" (request d) = None)
  ∧ (token w = None ∨ token w = Some "" →
     header "Authorization" (request d) = None
     ∧ fetched (events (run (call' v url data options cb) w).2)
       = fetched (events w) ++ [(URL d, request d)]
     ∧ ∃ r, (run (call' v url data options cb) w).1 = Fulfilled r).
Proof.
  intros d. subst d. rewrite built_Authorization.
  split; [|split].
  - intros Hhttp Hhttps t Ht Hne.
    assert (isRequestToExternalResource url = false) as ->
      by by apply not_external_spec.
    rewrite Ht. simpl.
    destruct (String.eqb_spec t "") as [->|_]; done.
  - intros Hext. apply isRequestToExternalResource_spec in Hext.
    by rewrite Hext.
  - intros Htoken. split_and!.
    + destruct Htoken as [-> | ->]; simpl; by rewrite andb_false_r.
    + apply call_fetched.
    + apply call_fulfils.
Qed.

(** C9.  The callback [cb] is never applied: whatever callback is passed,
    the decorated URL, the built request and the outcome of the call, with
    its effects, are those of the identity callback, which is also the
    default. *)
Theorem callback_is_never_applied v url data options (cb : option (value → value)) w :
  built' v url data options cb w = built' v url data options (Some (λ a, a)) w
  ∧ run (call' v url data options cb) w
    = run (call' v url data options (Some (λ a, a))) w.
Proof.
  split.
  - unfold built, decorateRequest. reflexivity.
  - rewrite !call_requestWrapper.
    unfold requestWrapper, decorateRequest. reflexivity.
Qed.


End Contract.

(** ** The built request does not depend on [options] *)

Lemma built_ignores_options base stringify v url data options options' cb w :
  built base stringify v url data options cb w
  = built base stringify v url data options' cb w.
Proof. unfold built, decorateRequest. reflexivity. Qed.

(** C3, at [get('/users', null, {credentials: 'include'})]: the property
    set in [options] is not in the issued request, whose properties are
    [method] and [headers] alone. *)
Theorem options_do_not_reach_the_request :
  let options := VObj {[ "credentials" := VStr "include" ]} in
  let d := built example_base plain_stringify Get "/users" VNull options None signed_in in
  field "credentials" options = Some (VStr "include")
  ∧ field "credentials" (request d) = None
  ∧ ¬ options_reach_request options (request d)
  ∧ fetched (events (run_example offline Get "/users" VNull options signed_in).2)
    = [(URL d, request d)].
Proof.
  intros options d.
  assert (field "credentials" (request d) = None) as Hnone.
  { destruct (field "credentials" (request d)) as [x|] eqn:Hx; [|done].
    destruct (built_fields example_base plain_stringify "credentials" Get "/users"
                VNull options None signed_in) as [|[|]]; [by eexists|done..]. }
  split_and!; [done|done| |].
  - intros H. destruct (H "credentials" (VStr "include")) as [x Hx]; [done|].
    congruence.
  - apply (call_fetched example_base plain_stringify offline Get "/users"
             VNull options None signed_in).
Qed.

(** ** The contract at concrete calls *)

(** [post('/login', credentials)] answered with 401: the token is evicted,
    once. *)
Lemma token_evicted_on_401 :
  settled example_base plain_stringify (answering 401 (json unauthorized))
    Post "/login" credentials VUndefined None signed_in = Fulfilled unauthorized
  ∧ count_resets (events (run_example (answering 401 (json unauthorized))
                            Post "/login" credentials VUndefined signed_in).2) = 1%nat.
Proof.
  split; [reflexivity|].
  apply (token_evicted_exactly_on_401_403 example_base plain_stringify
           (answering 401 (json unauthorized)) Post "/login" credentials
           VUndefined None signed_in unauthorized).
  reflexivity.
Defined.

(** [get('/users/1')] without network: what comes back is the error that
    [fetch] rejected with, and no Result that reports failure. *)
Lemma transport_failure_returns_the_error :
  (run_example offline Get "/users/1" VUndefined VUndefined anonymous).1
  = Fulfilled (VError "Failed to fetch")
  ∧ ¬ reports_failure (VError "Failed to fetch").
Proof.
  split; [vm_compute; reflexivity|].
  unfold reports_failure, field. discriminate.
Qed.

(** [get('/users')], no payload: the request has a [Content-Type] header
    all the same. *)
Lemma no_payload_still_gets_Content_Type :
  ¬ payload_decorated_as_specified plain_stringify VNull
      (request (built example_base plain_stringify Get "/users"
                  VUndefined VUndefined None anonymous)).
Proof.
  unfold payload_decorated_as_specified. simpl instanceof_FormData.
  simpl truthy. cbv iota. rewrite built_Content_Type. simpl.
  intros [_ H]. discriminate H.
Qed.

(** [post('/login', credentials)]: a JSON body and the JSON content type. *)
Lemma payload_decoration_of_login :
  let r := request (built example_base plain_stringify Post "/login"
                      credentials VUndefined None anonymous) in
  header "Content-Type" r = Some (VStr "application/json; charset=UTF-8")
  ∧ field "body" r = Some (VStr (plain_stringify credentials)).
Proof.
  pose proof (payload_decoration_of_built_request example_base plain_stringify
                Post "/login" credentials VUndefined None anonymous)
    as (_ & Hct & Hbody & _).
  split; [exact (Hct eq_refl) | exact (Hbody eq_refl eq_refl)].
Defined.


(** An empty 204 is an empty success; a 404 with a JSON body is a failure
    that carries the body. *)
Lemma parseJSON_of_empty_204 :
  run (parseJSON {| status := 204; ok := true;
                    json := Rejected (VError "Unexpected end of JSON input") |})
      anonymous
  = (Fulfilled (VObj {[ "ok" := VBool true; "data" := VObj ∅ ]}), anonymous)
  ∧ run (parseJSON {| status := 404; ok := false;
                      json := Fulfilled (VObj {[ "error" := VStr "not found" ]}) |})
        anonymous
    = (Fulfilled (VObj {[ "ok" := VBool false;
                          "data" := VObj {[ "error" := VStr "not found" ]} ]}),
       anonymous).
Proof.
  split.
  - exact (proj1 (parseJSON_normalises
             {| status := 204; ok := true;
                json := Rejected (VError "Unexpected end of JSON input") |} anonymous)
             _ eq_refl eq_refl).
  - exact (proj2 (proj2 (parseJSON_normalises
             {| status := 404; ok := false;
                json := Fulfilled (VObj {[ "error" := VStr "not found" ]}) |} anonymous))
             _ eq_refl).
Defined.

(** [get('ftp://files.example.com/report.csv')]: the URL matches
    [scheme://] and is prefixed with the base API origin all the same. *)
Lemma ftp_URL_is_prefixed :
  ¬ resolved_as_specified example_base "ftp://files.example.com/report.csv"
      (URL (built example_base plain_stringify Get
              "ftp://files.example.com/report.csv" VUndefined VUndefined None
              anonymous)).
Proof.
  unfold resolved_as_specified.
  assert (matches_scheme_pattern "ftp://files.example.com/report.csv" = true) as ->
    by reflexivity.
  rewrite built_URL.
  assert (isRequestToExternalResource "ftp://files.example.com/report.csv" = false)
    as -> by reflexivity.
  discriminate.
Qed.

(** An [https://] URL is used as it is, a path is prefixed. *)
Lemma URL_resolution_of_two_calls :
  URL (built example_base plain_stringify Get "https://external.example/data"
         VUndefined VUndefined None signed_in)
  = "https://external.example/data"
  ∧ URL (built example_base plain_stringify Get "/users/1"
           VUndefined VUndefined None signed_in)
    = example_base +:+ "/users/1".
Proof.
  split.
  - apply (proj1 (URL_resolution example_base plain_stringify offline Get
                    "https://external.example/data" VUndefined VUndefined None
                    signed_in)).
    right. exists "", "external.example/data". reflexivity.
  - apply (proj1 (proj2 (URL_resolution example_base plain_stringify offline Get
                           "/users/1" VUndefined VUndefined None signed_in)));
      apply not_external_spec; reflexivity.
Defined.

(** With a token stored, a path gets the header and an [https://] URL does
    not; without a token, [get('/users/1')] is handed to [fetch] without
    the header. *)
Lemma authorization_header_of_two_calls :
  header "Authorization"
    (request (built example_base plain_stringify Get "/users/1"
                VUndefined VUndefined None signed_in))
  = Some (VStr "JWT s3cr3t")
  ∧ header "Authorization"
      (request (built example_base plain_stringify Get
                  "https://external.example/data" VUndefined VUndefined None
                  signed_in))
    = None
  ∧ header "Authorization"
      (request (built example_base plain_stringify Get "/users/1"
                  VUndefined VUndefined None anonymous))
    = None.
Proof.
  split_and!.
  - apply (proj1 (authorization_header example_base plain_stringify offline Get
                    "/users/1" VUndefined VUndefined None signed_in)).
    + apply not_external_spec. reflexivity.
    + apply not_external_spec. reflexivity.
    + reflexivity.
    + discriminate.
  - apply (proj1 (proj2 (authorization_header example_base plain_stringify offline
                           Get "https://external.example/data" VUndefined
                           VUndefined None signed_in))).
    right. exists "", "external.example/data". reflexivity.
  - apply (proj2 (proj2 (authorization_header example_base plain_stringify offline
                           Get "/users/1" VUndefined VUndefined None anonymous))).
    left. reflexivity.
Defined.

(** [get('ftp://files.example.com/report.csv')] with a token stored: the
    URL has a scheme, and the request carries the token all the same.
    [get('/redirect?to=http://evil.example')]: the URL has no scheme, and
    the request carries no token. *)
Lemma ftp_URL_gets_the_token :
  ¬ authorization_as_specified "ftp://files.example.com/report.csv" (token signed_in)
      (request (built example_base plain_stringify Get
                  "ftp://files.example.com/report.csv" VUndefined VUndefined None
                  signed_in))
  ∧ ¬ authorization_as_specified "/redirect?to=http://evil.example" (token signed_in)
        (request (built example_base plain_stringify Get
                    "/redirect?to=http://evil.example" VUndefined VUndefined None
                    signed_in)).
Proof.
  split.
  - unfold authorization_as_specified.
    assert (matches_scheme_pattern "ftp://files.example.com/report.csv" = true) as ->
      by reflexivity.
    rewrite built_Authorization.
    assert (isRequestToExternalResource "ftp://files.example.com/report.csv" = false)
      as -> by reflexivity.
    discriminate.
  - unfold authorization_as_specified.
    assert (matches_scheme_pattern "/redirect?to=http://evil.example" = false) as ->
      by reflexivity.
    rewrite built_Authorization.
    assert (isRequestToExternalResource "/redirect?to=http://evil.example" = true)
      as -> by reflexivity.
    intros H. specialize (H "s3cr3t" eq_refl). simpl in H.
    assert (Some (VStr ("JWT " +:+ "s3cr3t")) = None) as Habs
      by (symmetry; apply H; discriminate).
    discriminate Habs.
Qed.


(** ** Further properties of the code *)

(** [_.merge] on plain objects, property by property: a property of the
    source is merged over the one the destination holds, and a property the
    source lacks is kept. *)
Lemma merge_fields_lookup (s d : gmap string value) k :
  map_fold (λ k sv acc, <[k := merge_val sv (acc !! k)]> acc) d s !! k
  = match s !! k with
    | Some sv => Some (merge_val sv (d !! k))
    | None => d !! k
    end.
Proof.
  revert k.
  apply (map_fold_weak_ind
           (λ r m, ∀ k, r !! k = match m !! k with
                                  | Some sv => Some (merge_val sv (d !! k))
                                  | None => d !! k
                                  end)).
  - intros k. by rewrite lookup_empty.
  - intros i x m r Hi IH k. destruct (decide (i = k)) as [->|Hne].
    + rewrite !lookup_insert_eq. by rewrite IH, Hi.
    + rewrite !lookup_insert_ne by done. apply IH.
Qed.

Lemma merge_val_plain (s : gmap string value) dst :
  merge_val (VObj s) dst
  = VObj (map_fold (λ k sv acc, <[k := merge_val sv (acc !! k)]> acc)
            (match dst with Some (VObj d) => d | _ => ∅ end) s).
Proof. reflexivity. Qed.

(** In [_.merge], later sources override earlier ones: after merging
    a plain source into a plain object, a property the source sets to a
    string, number, boolean or [null] has the source's value, and a
    property the source does not set keeps the value it had. *)
Theorem merge_later_overrides (d s : gmap string value) k :
  (∀ x, s !! k = Some x →
        match x with VStr _ | VNum _ | VBool _ | VNull => True | _ => False end →
        field k (merge_source (VObj d) (VObj s)) = Some x)
  ∧ (s !! k = None → field k (merge_source (VObj d) (VObj s)) = d !! k).
Proof.
  unfold merge_source, field. rewrite merge_val_plain, merge_fields_lookup.
  split.
  - intros x -> Hx. by destruct x.
  - by intros ->.
Qed.

(** [_.merge({method: 'GET'}, {method: 'POST'}).method]. *)
Lemma merge_later_overrides_method :
  field "method"
    (merge_source (VObj {[ "method" := VStr "GET" ]})
                  (VObj {[ "method" := VStr "POST" ]}))
  = Some (VStr "POST").
Proof.
  apply (proj1 (merge_later_overrides {[ "method" := VStr "GET" ]}
                  {[ "method" := VStr "POST" ]} "method") (VStr "POST")).
  - reflexivity.
  - exact I.
Defined.

(** X1.  [checkStatus] passes every response on unchanged, and for a status
    other than 401 and 403 it has no effect at all. *)
Theorem checkStatus_passes_response_on res w :
  (run (checkStatus res) w).1 = res
  ∧ (status res ≠ 401 → status res ≠ 403 → (run (checkStatus res) w).2 = w).
Proof.
  rewrite checkStatus_run. split; [done|].
  intros H1 H3. simpl. case_bool_decide as H; [|done]. by destruct H.
Qed.

(** A 404 goes through [checkStatus] untouched, and so does the token. *)
Lemma checkStatus_passes_404_on :
  run (checkStatus {| status := 404; ok := false; json := Fulfilled VNull |}) signed_in
  = ({| status := 404; ok := false; json := Fulfilled VNull |}, signed_in).
Proof.
  pose proof (checkStatus_passes_response_on
                {| status := 404; ok := false; json := Fulfilled VNull |} signed_in)
    as [H1 H2].
  rewrite (surjective_pairing (run _ _)), H1, H2; done.
Defined.

(** The scenarios of the specification: a 200 with a JSON body, a 404
    with a JSON body, a 204 with an empty body, and a 401 that evicts the
    token once. *)
Theorem specified_scenarios :
  (run_example (answering 200 (Fulfilled (VObj {[ "id" := VNum 1 ]})))
     Get "/users/1" VUndefined VUndefined signed_in).1
  = Fulfilled (VObj {[ "ok" := VBool true; "data" := VObj {[ "id" := VNum 1 ]} ]})
  ∧ (run_example (answering 404 (Fulfilled (VObj {[ "error" := VStr "not found" ]})))
       Get "/users/999" VUndefined VUndefined signed_in).1
    = Fulfilled (VObj {[ "ok" := VBool false;
                         "data" := VObj {[ "error" := VStr "not found" ]} ]})
  ∧ (run_example (answering 204 (Rejected (VError "Unexpected end of JSON input")))
       Del "/sessions/1" VUndefined VUndefined signed_in).1
    = Fulfilled (VObj {[ "ok" := VBool true; "data" := VObj ∅ ]})
  ∧ (let out := run_example (answering 401 (Fulfilled (VObj ∅)))
                  Post "/login" credentials VUndefined signed_in in
     out.1 = Fulfilled (VObj {[ "ok" := VBool false; "data" := VObj ∅ ]})
     ∧ count_resets (events out.2) = 1%nat
     ∧ token out.2 = None).
Proof.
  unfold run_example. cbv zeta.
  split_and!;
    match goal with
    | |- context [run (call ?b ?s ?f ?v ?u ?d ?o ?c) ?w] =>
        destruct (call_run b s f v u d o c w) as [line ->]
    end;
    unfold settled, answering; rewrite parseJSON_run, checkStatus_run;
    reflexivity.
Qed.

(** ** More on the request client *)

Lemma string_app_assoc (a b c : string) : (a +:+ b) +:+ c = a +:+ (b +:+ c).
Proof.
  induction a as [|x a IH]; [done|].
  rewrite !string_app_cons. by rewrite IH.
Qed.

Lemma contains_app_r needle a b : contains needle a → contains needle (a +:+ b).
Proof.
  intros (pre & suf & ->). exists pre, (suf +:+ b).
  by rewrite !string_app_assoc.
Qed.

Lemma contains_app_l needle a b : contains needle b → contains needle (a +:+ b).
Proof.
  intros (pre & suf & ->). exists (a +:+ pre), suf.
  by rewrite !string_app_assoc.
Qed.

Section ClientExtras.

Variable BASE_API : string.
Variable JSON_stringify : value → string.
Variable fetch : string → value → Promise Response.

Local Abbreviation call' := (call BASE_API JSON_stringify fetch).
Local Abbreviation built' := (built BASE_API JSON_stringify).
Local Abbreviation settled' := (settled BASE_API JSON_stringify fetch).

(** The stored token after a call, by the way its [fetch] settled. *)
Lemma call_token v url data options cb w :
  token (run (call' v url data options cb) w).2
  = match settled' v url data options cb w with
    | Fulfilled res =>
        if bool_decide (status res = 401 ∨ status res = 403) then None else token w
    | Rejected _ => token w
    end.
Proof.
  destruct (call_run BASE_API JSON_stringify fetch v url data options cb w)
    as [line Hrun].
  cbv zeta in Hrun. rewrite Hrun.
  destruct (settled' v url data options cb w) as [res|err]; [|done].
  rewrite parseJSON_run, checkStatus_run. simpl snd.
  by case_bool_decide.
Qed.

(** X2.  A call leaves the stored token as it was, unless the response has
    status 401 or 403: a transport failure, a 5xx or an unparseable body
    never costs the user the token. *)
Theorem token_survives_other_outcomes v url data options cb w :
  (∀ err, settled' v url data options cb w = Rejected err →
     token (run (call' v url data options cb) w).2 = token w)
  ∧ (∀ res, settled' v url data options cb w = Fulfilled res →
       status res ≠ 401 → status res ≠ 403 →
       token (run (call' v url data options cb) w).2 = token w).
Proof.
  rewrite call_token. split.
  - by intros err ->.
  - intros res -> H1 H3. case_bool_decide as H; [by destruct H|done].
Qed.

(** X3.  Once a call was answered with 401 or 403, no later call sends an
    [Authorization] header, whatever its verb, URL and payload: the
    evicted token is not sent again. *)
Theorem evicted_token_is_not_sent_again v url data options cb w res
    v' url' data' options' cb' :
  settled' v url data options cb w = Fulfilled res →
  status res = 401 ∨ status res = 403 →
  header "Authorization"
    (request (built' v' url' data' options' cb'
                (run (call' v url data options cb) w).2))
  = None.
Proof.
  intros Hres Hs. rewrite built_Authorization, call_token, Hres.
  rewrite bool_decide_eq_true_2 by done. simpl. by rewrite andb_false_r.
Qed.

(** X4.  When [fetch] brought a response, the value returned has [ok: true]
    exactly when the body parsed and [res.ok] holds, or the body did not
    parse and the status is 204; so a 200 whose body is empty or no JSON
    comes back as a failure. *)
Theorem ok_true_characterised v url data options cb w res r :
  settled' v url data options cb w = Fulfilled res →
  (run (call' v url data options cb) w).1 = Fulfilled r →
  field "ok" r = Some (VBool true)
  ↔ (∃ j, json res = Fulfilled j ∧ ok res = true)
    ∨ (∃ e, json res = Rejected e ∧ status res = 204).
Proof.
  intros Hres Hr.
  destruct (call_run BASE_API JSON_stringify fetch v url data options cb w)
    as [line Hrun].
  cbv zeta in Hrun. rewrite Hrun, Hres, parseJSON_run in Hr. simpl in Hr.
  destruct (json res) as [j|e].
  - injection Hr as <-. unfold field. rewrite lookup_insert_eq. split.
    + intros [= Hok]. left. eauto.
    + intros [(j' & _ & ->) | (e & He & _)]; done.
  - destruct (Z.eqb_spec (status res) 204) as [H204|H204];
      injection Hr as <-; unfold field.
    + rewrite lookup_insert_eq. split; [|done]. intros _. right. eauto.
    + rewrite lookup_singleton_eq. split; [done|].
      intros [(j' & Hj & _) | (e' & _ & Hs)]; done.
Qed.

(** X5.  With a base API origin that is itself an [http://] or [https://]
    URL, every URL the client resolves is external to it: resolving it
    again leaves it unchanged, and a request addressed with it, such as
    one to [BASE_API + path], gets no [Authorization] header, token or
    not. *)
Theorem resolved_URL_is_external v url data options cb w :
  contains "http://" BASE_API ∨ contains "https://" BASE_API →
  let U := URL (built' v url data options cb w) in
  isRequestToExternalResource U = true
  ∧ (∀ v' data' options' cb' w',
       URL (built' v' U data' options' cb' w') = U
       ∧ header "Authorization" (request (built' v' U data' options' cb' w')) = None).
Proof.
  intros Hbase U.
  assert (isRequestToExternalResource U = true) as HU.
  { subst U. rewrite built_URL.
    destruct (isRequestToExternalResource url) eqn:Hext; [done|].
    apply isRequestToExternalResource_spec.
    destruct Hbase; [left | right]; by apply contains_app_r. }
  split; [done|]. intros v' data' options' cb' w'.
  rewrite built_URL, built_Authorization, HU. done.
Qed.


End ClientExtras.

(** [post('/login', credentials)] answered with 401, then [get('/users/1')]:
    the second request has no [Authorization] header. *)
Lemma token_not_sent_after_401 :
  header "Authorization"
    (request (built example_base plain_stringify Get "/users/1" VUndefined VUndefined None
                (run_example (answering 401 (json unauthorized))
                   Post "/login" credentials VUndefined signed_in).2))
  = None.
Proof.
  apply (evicted_token_is_not_sent_again example_base plain_stringify
           (answering 401 (json unauthorized)) Post "/login" credentials
           VUndefined None signed_in unauthorized).
  - reflexivity.
  - left. reflexivity.
Defined.

(** A 500, and a rejected [fetch], leave the token where it is. *)
Lemma token_survives_500_and_offline :
  token (run_example (answering 500 (Rejected (VError "Unexpected token <")))
           Get "/users/1" VUndefined VUndefined signed_in).2 = Some "s3cr3t"
  ∧ token (run_example offline Get "/users/1" VUndefined VUndefined signed_in).2
    = Some "s3cr3t".
Proof.
  split.
  - apply (proj2 (token_survives_other_outcomes example_base plain_stringify
                    (answering 500 (Rejected (VError "Unexpected token <")))
                    Get "/users/1" VUndefined VUndefined None signed_in)
             {| status := 500; ok := false;
                json := Rejected (VError "Unexpected token <") |});
      [reflexivity | discriminate | discriminate].
  - apply (proj1 (token_survives_other_outcomes example_base plain_stringify
                    offline Get "/users/1" VUndefined VUndefined None signed_in)
             (VError "Failed to fetch")).
    reflexivity.
Defined.

(** A 200 with an empty body comes back as [{ok: false}]: its [ok] is not
    [true]. *)
Lemma empty_200_is_not_ok :
  let res := {| status := 200; ok := true;
                json := Rejected (VError "Unexpected end of JSON input") |} in
  let r := VObj {[ "ok" := VBool false ]} in
  (run_example (answering 200 (json res)) Get "/ping" VUndefined VUndefined
     anonymous).1 = Fulfilled r
  ∧ (field "ok" r = Some (VBool true)
     ↔ (∃ j, json res = Fulfilled j ∧ ok res = true)
       ∨ (∃ e, json res = Rejected e ∧ status res = 204)).
Proof.
  intros res r.
  assert ((run_example (answering 200 (json res)) Get "/ping" VUndefined VUndefined
             anonymous).1 = Fulfilled r) as Hr
    by (vm_compute; reflexivity).
  split; [exact Hr|].
  apply (ok_true_characterised example_base plain_stringify
           (answering 200 (json res)) Get "/ping" VUndefined VUndefined None
           anonymous res r).
  - reflexivity.
  - exact Hr.
Defined.

(** With the base [https://api.example.com], [get('/users/1')] resolves to a
    URL that is external. *)
Lemma resolved_example_URL_is_external :
  isRequestToExternalResource
    (URL (built example_base plain_stringify Get "/users/1" VUndefined VUndefined None
            signed_in)) = true.
Proof.
  apply (resolved_URL_is_external example_base plain_stringify Get "/users/1"
           VUndefined VUndefined None signed_in).
  right. exists "", "api.example.com". reflexivity.
Defined.

(** ** The App container *)

Set Warnings "-clear-no-such-hyp".

Section AppProperties.

Variable getWindowInnerWidth : value → Z.

Local Abbreviation handlers' := (mapDispatchToProps getWindowInnerWidth store_dispatch).
Local Abbreviation connected' := (connected getWindowInnerWidth).
Local Abbreviation react' := (react getWindowInnerWidth).

(** *** The resize timer *)

Lemma only_resizer_pending_size ui :
  only_resizer_pending ui → (size (timers ui) ≤ 1)%nat.
Proof.
  intros Hinv. destruct (resizer ui) as [r|] eqn:Hr.
  - destruct (timers ui !! r) as [t|] eqn:Ht.
    + assert (timers ui = {[ r := t ]}) as ->; [|rewrite map_size_singleton; lia].
      apply map_eq. intros k. destruct (decide (k = r)) as [->|Hne].
      * by rewrite lookup_singleton_eq.
      * rewrite lookup_singleton_ne by done.
        destruct (timers ui !! k) as [t'|] eqn:Hk; [|done].
        destruct (Hinv k t' Hk) as (Hk' & _). congruence.
    + assert (timers ui = ∅) as ->; [|rewrite map_size_empty; lia].
      apply map_eq. intros k. rewrite lookup_empty.
      destruct (timers ui !! k) as [t'|] eqn:Hk; [|done].
      destruct (Hinv k t' Hk) as (Hk' & _). congruence.
  - assert (timers ui = ∅) as ->; [|rewrite map_size_empty; lia].
    apply map_eq. intros k. rewrite lookup_empty.
    destruct (timers ui !! k) as [t'|] eqn:Hk; [|done].
    destruct (Hinv k t' Hk) as (Hk' & _). congruence.
Qed.

(** [clearTimeout(resizer)] leaves no timer. *)
Lemma clearTimeout_resizer ui :
  only_resizer_pending ui → timers (clearTimeout (resizer ui) ui) = ∅.
Proof.
  intros Hinv. apply map_eq. intros k. rewrite lookup_empty.
  destruct (resizer ui) as [r|] eqn:Hr; simpl.
  - destruct (decide (k = r)) as [->|Hne].
    + by rewrite lookup_delete_eq.
    + rewrite lookup_delete_ne by done.
      destruct (timers ui !! k) as [t'|] eqn:Hk; [|done].
      destruct (Hinv k t' Hk) as (Hk' & _). congruence.
  - destruct (timers ui !! k) as [t'|] eqn:Hk; [|done].
    destruct (Hinv k t' Hk) as (Hk' & _). congruence.
Qed.

(** What [handleWindowResize] leaves: one timer, for the width the window
    has now. *)
Lemma handleWindowResize_run ui :
  only_resizer_pending ui →
  timers (handleWindowResize handlers' ui)
  = {[ next_timer ui := (150, WINDOW_RESIZE (getWindowInnerWidth (window ui))) ]}
  ∧ resizer (handleWindowResize handlers' ui) = Some (next_timer ui)
  ∧ next_timer (handleWindowResize handlers' ui) = S (next_timer ui)
  ∧ dispatched (handleWindowResize handlers' ui) = dispatched ui
  ∧ listeners (handleWindowResize handlers' ui) = listeners ui
  ∧ window (handleWindowResize handlers' ui) = window ui.
Proof.
  intros Hinv. simpl. unfold setTimeout, set_resizer. simpl.
  rewrite clearTimeout_resizer by done.
  destruct (resizer ui); simpl; split_and!; done.
Qed.

(** A pending timer that runs is gone, and its action is dispatched. *)
Lemma fire_run id d a ui :
  timers ui !! id = Some (d, a) →
  dispatched (fire store_dispatch id ui) = dispatched ui ++ [a]
  ∧ timers (fire store_dispatch id ui) = delete id (timers ui).
Proof. intros Hid. unfold fire. rewrite Hid. done. Qed.

Lemma handleWindowResize_keeps ui :
  only_resizer_pending ui →
  only_resizer_pending (handleWindowResize handlers' ui).
Proof.
  intros Hinv.
  destruct (handleWindowResize_run ui Hinv) as (Ht & Hr & Hn & _).
  intros id t. rewrite Ht, Hr, Hn. intros Hl.
  apply lookup_singleton_Some in Hl as [<- <-]. split_and!; [done|done|lia].
Qed.

Lemma fire_keeps id ui :
  only_resizer_pending ui → only_resizer_pending (fire store_dispatch id ui).
Proof.
  intros Hinv. unfold fire.
  destruct (timers ui !! id) as [[d a]|] eqn:Hid; [|done].
  intros k t. simpl. intros Hk.
  destruct (decide (k = id)) as [->|Hne].
  - by rewrite lookup_delete_eq in Hk.
  - rewrite lookup_delete_ne in Hk by done. by apply Hinv.
Qed.

Lemma with_window_keeps w ui :
  only_resizer_pending ui → only_resizer_pending (with_window w ui).
Proof. intros Hinv id t. apply Hinv. Qed.

Lemma react_resized w ui :
  react' (WindowResized w) ui
  = if bool_decide ("resize" ∈ listeners ui)
    then handleWindowResize handlers' (with_window w ui)
    else with_window w ui.
Proof. reflexivity. Qed.

Lemma react_keeps e ui :
  only_resizer_pending ui → only_resizer_pending (react' e ui).
Proof.
  intros Hinv. destruct e as [w|id]; [rewrite react_resized | simpl react].
  - case_bool_decide; [|by apply with_window_keeps].
    by apply handleWindowResize_keeps, with_window_keeps.
  - by apply fire_keeps.
Qed.

Lemma reacts_keep es ui :
  only_resizer_pending ui →
  only_resizer_pending (foldl (λ ui e, react' e ui) ui es).
Proof.
  revert ui. induction es as [|e es IH]; intros ui Hinv; [done|].
  simpl. apply IH. by apply react_keeps.
Qed.

Lemma no_timer_only_resizer_pending ui :
  timers ui = ∅ → only_resizer_pending ui.
Proof. intros He id t. by rewrite He, lookup_empty. Qed.

Lemma componentWillMount_keeps BROWSER this ui :
  handlers this = handlers' →
  only_resizer_pending ui →
  only_resizer_pending (componentWillMount BROWSER this ui).
Proof.
  intros Hh Hinv. unfold componentWillMount, checkAppAuthLogic. rewrite Hh.
  assert (∀ u path b, only_resizer_pending u →
            only_resizer_pending (checkAuthLogic handlers' path b u)) as Hcheck.
  { intros u path b Hu. simpl.
    destruct (b && String.eqb path "/auth"); [|done].
    intros id t. apply Hu. }
  apply Hcheck. destruct BROWSER; [|done].
  intros id t. apply (handleWindowResize_keeps ui Hinv id t).
Qed.

(** X7.  The resize handler is a debounce: an app mounted on a page
    without timers has, whatever resizes and timers happen to it
    afterwards, at most one timer pending; it is the one that [resizer]
    holds, and its callback waits 150 ms. *)
Theorem at_most_one_resize_timer BROWSER rs path opened loggedIn mobile ui es :
  timers ui = ∅ →
  let this := connected' rs path opened loggedIn mobile in
  let ui' := foldl (λ ui e, react' e ui) (componentWillMount BROWSER this ui) es in
  (size (timers ui') ≤ 1)%nat
  ∧ ∀ id t, timers ui' !! id = Some t → resizer ui' = Some id ∧ t.1 = 150.
Proof.
  intros He this ui'.
  assert (only_resizer_pending ui') as Hinv.
  { apply reacts_keep, componentWillMount_keeps; [done|].
    apply no_timer_only_resizer_pending, He. }
  split; [by apply only_resizer_pending_size|].
  intros id t Hid. destruct (Hinv id t Hid) as (? & ? & _). done.
Qed.

(** A burst of resizes dispatches nothing and leaves the listeners as they
    are. *)
Lemma resizes_run ws ui :
  only_resizer_pending ui →
  dispatched (foldl (λ ui e, react' e ui) ui (WindowResized <$> ws)) = dispatched ui
  ∧ listeners (foldl (λ ui e, react' e ui) ui (WindowResized <$> ws)) = listeners ui
  ∧ only_resizer_pending (foldl (λ ui e, react' e ui) ui (WindowResized <$> ws)).
Proof.
  revert ui. induction ws as [|w ws IH]; intros ui Hinv; [done|].
  rewrite fmap_cons. cbn [foldl].
  assert (only_resizer_pending (react' (WindowResized w) ui)) as Hinv1
    by by apply react_keeps.
  assert (dispatched (react' (WindowResized w) ui) = dispatched ui
          ∧ listeners (react' (WindowResized w) ui) = listeners ui) as [Hd Hl].
  { rewrite react_resized. case_bool_decide; [|done].
    destruct (handleWindowResize_run (with_window w ui)) as (_ & _ & _ & Hd & Hl & _);
      [by apply with_window_keeps|]. done. }
  destruct (IH _ Hinv1) as (Hd' & Hl' & Hinv').
  rewrite Hd', Hl', Hd, Hl. done.
Qed.

(** X8.  A burst of resizes, however long, ends in one dispatch: while it
    lasts nothing is dispatched, and when the timer that is left runs, the
    store receives one [WINDOW_RESIZE], with the width of the window at
    the last resize. *)
Theorem resize_burst_dispatches_last_width ui ws w :
  only_resizer_pending ui →
  "resize" ∈ listeners ui →
  let ui' := foldl (λ ui e, react' e ui) ui (WindowResized <$> (ws ++ [w])) in
  dispatched ui' = dispatched ui
  ∧ ∃ id, resizer ui' = Some id
    ∧ timers ui' = {[ id := (150, WINDOW_RESIZE (getWindowInnerWidth w)) ]}
    ∧ dispatched (react' (TimerFired id) ui')
      = dispatched ui ++ [WINDOW_RESIZE (getWindowInnerWidth w)]
    ∧ timers (react' (TimerFired id) ui') = ∅.
Proof.
  intros He Hl ui'. subst ui'.
  rewrite fmap_app, foldl_app.
  change (foldl ?f ?a (WindowResized <$> [w])) with (react' (WindowResized w) a).
  rewrite react_resized.
  destruct (resizes_run ws ui) as (Hd1 & Hl1 & Hinv1); [done|].
  set (ui1 := foldl (λ ui e, react' e ui) ui (WindowResized <$> ws)) in *.
  rewrite bool_decide_eq_true_2 by (by rewrite Hl1).
  destruct (handleWindowResize_run (with_window w ui1)) as (Ht & Hr & _ & Hd & _);
    [by apply with_window_keeps|].
  split; [by rewrite Hd, <- Hd1|].
  exists (next_timer ui1). split; [exact Hr|]. split; [exact Ht|].
  change (react' (TimerFired ?i) ?u) with (fire store_dispatch i u).
  destruct (fire_run (next_timer ui1) 150
              (WINDOW_RESIZE (getWindowInnerWidth w))
              (handleWindowResize handlers' (with_window w ui1))) as [Hfd Hft].
  { rewrite Ht. apply lookup_singleton_eq. }
  rewrite Hfd, Hft, Hd, Ht. split; [by rewrite <- Hd1|].
  apply delete_singleton_eq.
Qed.

(** *** Mounting and updating *)

(** X9.  Mounting the app redirects to [/] exactly when the user is logged
    in and the location is [/auth].  In the browser it also leaves a
    listener for [resize] and a timer for the present width of the window;
    on the server it sets no timer and registers no listener. *)
Theorem componentWillMount_run BROWSER rs path opened loggedIn mobile ui :
  let this := connected' rs path opened loggedIn mobile in
  let ui' := componentWillMount BROWSER this ui in
  dispatched ui'
  = dispatched ui ++ (if loggedIn && String.eqb path "/auth" then [push "/"] else [])
  ∧ (BROWSER = false →
     timers ui' = timers ui ∧ listeners ui' = listeners ui ∧ resizer ui' = resizer ui)
  ∧ (BROWSER = true →
     "resize" ∈ listeners ui'
     ∧ ∃ id, resizer ui' = Some id
       ∧ timers ui' !! id
         = Some (150, WINDOW_RESIZE (getWindowInnerWidth (window ui)))).
Proof.
  intros this ui'. subst this ui'.
  unfold componentWillMount, checkAppAuthLogic, connected. simpl.
  destruct BROWSER.
  - unfold setTimeout, set_resizer, addEventListener. simpl.
    split_and!.
    + destruct (loggedIn && String.eqb path "/auth"); simpl;
        destruct (resizer ui); simpl; by rewrite ?app_nil_r.
    + done.
    + intros _. split.
      * assert (∀ l : list string, "resize" ∈ (if bool_decide ("resize" ∈ l)
                                                then l else l ++ ["resize"])) as Hin.
        { intros l. case_bool_decide; [done|]. set_solver. }
        destruct (loggedIn && String.eqb path "/auth"), (resizer ui);
          simpl; apply Hin.
      * exists (next_timer ui).
        destruct (loggedIn && String.eqb path "/auth"), (resizer ui);
          simpl; by rewrite lookup_insert_eq.
  - split_and!.
    + destruct (loggedIn && String.eqb path "/auth"); simpl;
        by rewrite ?app_nil_r.
    + intros _. by destruct (loggedIn && String.eqb path "/auth").
    + done.
Qed.

(** X10.  When the props change, the redirect is decided by the login of
    the next props and the location of the present ones.  Away from
    [/auth] nothing happens, whatever the next props hold, their location
    included; at [/auth] a login that arrives redirects to [/]; and a user
    who is not logged in is left where they are. *)
Theorem componentWillReceiveProps_run rs path opened loggedIn mobile
    (nextProps : Props) ui :
  let this := connected' rs path opened loggedIn mobile in
  (path ≠ "/auth" → componentWillReceiveProps this nextProps ui = ui)
  ∧ (path = "/auth" → isLoggedIn nextProps = true →
     componentWillReceiveProps this nextProps ui = store_dispatch (push "/") ui)
  ∧ (isLoggedIn nextProps = false →
     componentWillReceiveProps this nextProps ui = ui).
Proof.
  intros this. subst this.
  unfold componentWillReceiveProps, checkAppAuthLogic, connected. simpl.
  split_and!.
  - intros Hne. destruct (String.eqb_spec path "/auth") as [->|_]; [done|].
    by rewrite andb_false_r.
  - by intros -> ->.
  - by intros ->.
Qed.

End AppProperties.

(** *** The sidebar menu *)

(** The object [getSidebarRouting] makes of a route, property by
    property. *)
Lemma picked_lookup (a : gmap string value) k :
  ({[ "path" := prop_of "path" a; "name" := prop_of "name" a;
      "icon" := prop_of "icon" a; "external" := prop_of "external" a;
      "strict" := prop_of "strict" a; "exact" := prop_of "exact" a ]}
   : gmap string value) !! k
  = if bool_decide (k ∈ ["path"; "name"; "icon"; "external"; "strict"; "exact"])
    then Some (prop_of k a)
    else None.
Proof.
  case_bool_decide as Hk.
  - repeat (apply elem_of_cons in Hk as [->|Hk]; [reflexivity|]).
    by apply elem_of_nil in Hk.
  - rewrite !lookup_insert_ne, lookup_singleton_ne; [done|..];
      intros <-; apply Hk; set_solver.
Qed.

Lemma picked_dom (a : gmap string value) :
  dom ({[ "path" := prop_of "path" a; "name" := prop_of "name" a;
          "icon" := prop_of "icon" a; "external" := prop_of "external" a;
          "strict" := prop_of "strict" a; "exact" := prop_of "exact" a ]}
       : gmap string value)
  = ({[ "path"; "name"; "icon"; "external"; "strict"; "exact" ]} : gset string).
Proof.
  apply set_eq. intros k. rewrite elem_of_dom, (picked_lookup a k).
  case_bool_decide as Hk.
  - split; [intros _; set_solver | eauto].
  - split; [by intros [? ?] | intros Hin; exfalso; apply Hk; set_solver].
Qed.

Lemma prop_of_picked (a : gmap string value) k :
  prop_of k ({[ "path" := prop_of "path" a; "name" := prop_of "name" a;
                "icon" := prop_of "icon" a; "external" := prop_of "external" a;
                "strict" := prop_of "strict" a; "exact" := prop_of "exact" a ]}
             : gmap string value)
  = if bool_decide (k ∈ ["path"; "name"; "icon"; "external"; "strict"; "exact"])
    then prop_of k a
    else VUndefined.
Proof.
  unfold prop_of at 1. rewrite (picked_lookup a k). by case_bool_decide.
Qed.

Lemma filter_none {A} (f : A → bool) (l : list A) :
  (∀ x, x ∈ l → f x = false) → List.filter f l = [].
Proof.
  induction l as [|x l IH]; intros Hl; [done|]. simpl.
  rewrite (Hl x) by set_solver. apply IH. intros y Hy. apply Hl. set_solver.
Qed.

(** X11.  Every entry of the sidebar menu comes from a route whose
    [sidebarVisible] is truthy, and is a copy of its [path], [name],
    [icon], [external], [strict] and [exact]: it has these six properties
    and no other, so [sidebarVisible] and the component of the route are
    not passed on. *)
Theorem sidebar_entries_come_from_visible_routes this (b : gmap string value) :
  b ∈ getSidebarRouting this →
  dom b = {[ "path"; "name"; "icon"; "external"; "strict"; "exact" ]}
  ∧ ∃ a, a ∈ routes this
      ∧ truthy (prop_of "sidebarVisible" a) = true
      ∧ ∀ k, k ∈ dom b → b !! k = Some (prop_of k a).
Proof.
  unfold getSidebarRouting. intros Hb.
  apply list_elem_of_In, in_map_iff in Hb as (a & <- & Ha).
  apply filter_In in Ha as [Ha Hvis]. cbv beta zeta.
  split; [apply picked_dom|].
  exists a. split; [by apply list_elem_of_In|]. split; [done|].
  intros k Hk. rewrite picked_dom in Hk. rewrite (picked_lookup a k).
  rewrite bool_decide_eq_true_2; [done|set_solver].
Qed.

(** X12.  Every route whose [sidebarVisible] is truthy has its entry in
    the menu, at the place it has among the visible routes, with its
    [path] and [name]; and the menu of a menu is empty, since an entry has
    no [sidebarVisible]. *)
Theorem sidebar_menu_is_complete_and_not_reusable this this' :
  (∀ i a, List.filter (λ a, truthy (prop_of "sidebarVisible" a)) (routes this) !! i
          = Some a →
     ∃ b, getSidebarRouting this !! i = Some b
          ∧ prop_of "path" b = prop_of "path" a
          ∧ prop_of "name" b = prop_of "name" a)
  ∧ length (getSidebarRouting this)
    = length (List.filter (λ a, truthy (prop_of "sidebarVisible" a)) (routes this))
  ∧ (routes this' = getSidebarRouting this → getSidebarRouting this' = []).
Proof.
  split_and!.
  - intros i a Hi. unfold getSidebarRouting.
    change (@map ?A ?B) with (@fmap list _ A B).
    rewrite list_lookup_fmap, Hi. cbn [fmap option_fmap option_map]. cbv beta zeta.
    eexists. split; [done|].
    by rewrite (prop_of_picked a "path"), (prop_of_picked a "name").
  - unfold getSidebarRouting. by rewrite length_map.
  - intros Hr. unfold getSidebarRouting at 1. rewrite Hr.
    rewrite filter_none; [done|].
    intros b Hb. unfold getSidebarRouting in Hb.
    apply list_elem_of_In, in_map_iff in Hb as (a & <- & _). cbv beta zeta.
    by rewrite (prop_of_picked a "sidebarVisible").
Qed.

(** *** The page title *)

Section AppView.

Variable matchPath : string → gmap string value → value.

(** X13.  The page title is never empty: it is the [name] of the first
    route that matches the location when that name is truthy, and ['404']
    in every other case, so also for a page that exists but whose route
    has no name. *)
Theorem page_title_is_never_empty this pathname :
  truthy (getPageTitle matchPath this pathname) = true
  ∧ (getPageTitle matchPath this pathname = VStr "404"
     ∨ ∃ a, a ∈ routes this
          ∧ truthy (matchPath pathname a) = true
          ∧ getPageTitle matchPath this pathname = prop_of "name" a).
Proof.
  unfold getPageTitle.
  destruct (List.find _ (routes this)) as [a|] eqn:Hfind; simpl.
  - apply find_some in Hfind as [Ha Hm].
    destruct (truthy (prop_of "name" a)) eqn:Hn.
    + split; [done|]. right. exists a. by rewrite list_elem_of_In.
    + split; [done|]. by left.
  - split; [done|]. by left.
Qed.

(** X14.  The first route that matches decides the title: routes after it
    are not looked at, also when they match and it has no name.  When no
    route matches, the title is ['404']. *)
Theorem page_title_of_first_match this pathname :
  (∀ before a after,
     routes this = before ++ a :: after →
     (∀ b, b ∈ before → truthy (matchPath pathname b) = false) →
     truthy (matchPath pathname a) = true →
     getPageTitle matchPath this pathname
     = if truthy (prop_of "name" a) then prop_of "name" a else VStr "404")
  ∧ ((∀ b, b ∈ routes this → truthy (matchPath pathname b) = false) →
     getPageTitle matchPath this pathname = VStr "404").
Proof.
  unfold getPageTitle. split.
  - intros before a after -> Hbefore Ha.
    assert (List.find (λ a, truthy (matchPath pathname a)) (before ++ a :: after)
            = Some a) as ->; [|done].
    induction before as [|b before IH]; simpl.
    + by rewrite Ha.
    + rewrite (Hbefore b) by set_solver. apply IH.
      intros b' Hb'. apply Hbefore. set_solver.
  - intros Hnone.
    assert (List.find (λ a, truthy (matchPath pathname a)) (routes this) = None)
      as ->; [|done].
    induction (routes this) as [|b l IH]; [done|]. simpl.
    rewrite (Hnone b) by set_solver. apply IH.
    intros b' Hb'. apply Hnone. set_solver.
Qed.

(** *** What is rendered *)

(** X15.  The sidebar is rendered exactly when the user is logged in, once,
    with the menu of [getSidebarRouting]; and whenever the dimmer is
    active, the sidebar is on the page and open. *)
Theorem sidebar_is_rendered_when_logged_in this :
  props_of "Sidebar" (render matchPath this)
  = (if isLoggedIn this
     then [ {[ "isMobile" := PValue (isMobile this);
               "logout" := PHandler (logout (handlers this));
               "open" := PValue (VBool (sidebarOpened this));
               "routing" := PRouting (getSidebarRouting this) ]} ]
     else [])
  ∧ ∀ dimmer, dimmer ∈ props_of "StyledDimmer" (render matchPath this) →
      dimmer !! "active" = Some (PValue (VBool true)) →
      ∃ sidebar, props_of "Sidebar" (render matchPath this) = [sidebar]
                 ∧ sidebar !! "open" = Some (PValue (VBool true)).
Proof.
  assert (props_of "Sidebar" (render matchPath this)
          = (if isLoggedIn this
             then [ {[ "isMobile" := PValue (isMobile this);
                       "logout" := PHandler (logout (handlers this));
                       "open" := PValue (VBool (sidebarOpened this));
                       "routing" := PRouting (getSidebarRouting this) ]} ]
             else [])) as HS.
  { unfold render.
    destruct (isLoggedIn this), (truthy (isMobile this)); reflexivity. }
  split; [exact HS|].
  intros dimmer Hin Hactive.
  assert (props_of "StyledDimmer" (render matchPath this)
          = [ {[ "active" := PValue (VBool (isLoggedIn this && sidebarOpened this));
                 "page" := PValue (VBool true);
                 "onClick" := PHandler (closeSidebar (handlers this)) ]} ]) as HD.
  { unfold render.
    destruct (isLoggedIn this), (truthy (isMobile this)); reflexivity. }
  rewrite HD in Hin. apply list_elem_of_singleton in Hin. subst dimmer.
  rewrite lookup_insert_eq in Hactive.
  injection Hactive as Hactive. apply andb_prop in Hactive as [Hl Ho].
  rewrite HS, Hl, Ho. eexists. split; [done|].
  rewrite lookup_insert_ne, lookup_insert_ne, lookup_insert_eq; done.
Qed.

(** X16.  Whatever the props are, the children of the app are rendered
    exactly once, and the header is rendered once, with the page title of
    the present location. *)
Theorem children_and_header_are_rendered_once this :
  count_children (render matchPath this) = 1%nat
  ∧ ∃ header, props_of "Header" (render matchPath this) = [header]
      ∧ header !! "title"
        = Some (PValue (getPageTitle matchPath this (pathname this))).
Proof.
  unfold render. split.
  - destruct (isLoggedIn this), (truthy (isMobile this)); reflexivity.
  - exists {[ "toggleSidebar" := PHandler (toggleSidebar (handlers this));
              "title" := PValue (getPageTitle matchPath this (pathname this));
              "isLoggedIn" := PValue (VBool (isLoggedIn this));
              "isMobile" := PValue (isMobile this) ]}.
    split.
    + destruct (isLoggedIn this), (truthy (isMobile this)); reflexivity.
    + rewrite lookup_insert_ne, lookup_insert_eq; done.
Qed.

End AppView.

(** ** The App container at a concrete page *)

(** After the mount and two resizes one timer is pending. *)
Lemma one_timer_after_two_resizes :
  let ui' := foldl (λ ui e, react innerWidth_of e ui) mounted_page
               [WindowResized (window_of_width 800);
                WindowResized (window_of_width 640)] in
  (size (timers ui') ≤ 1)%nat
  ∧ ∀ id t, timers ui' !! id = Some t → resizer ui' = Some id ∧ t.1 = 150.
Proof.
  apply (at_most_one_resize_timer innerWidth_of true example_routes "/auth"
           false true (VBool false) (loaded (window_of_width 1024))
           [WindowResized (window_of_width 800);
            WindowResized (window_of_width 640)]).
  reflexivity.
Defined.

Lemma mounted_page_only_resizer_pending : only_resizer_pending mounted_page.
Proof.
  apply (componentWillMount_keeps innerWidth_of); [reflexivity|].
  apply no_timer_only_resizer_pending. reflexivity.
Defined.

Lemma mounted_page_listens : "resize" ∈ listeners mounted_page.
Proof. apply list_elem_of_here. Defined.

(** Resizes to 800 and then to 640 on the mounted page: the store receives
    [WINDOW_RESIZE(640)] after the redirect of the mount, and nothing for
    800 or for the width at the mount. *)
Lemma two_resizes_dispatch_the_last_width :
  let ui' := foldl (λ ui e, react innerWidth_of e ui) mounted_page
               (WindowResized <$> ([window_of_width 800] ++ [window_of_width 640])) in
  dispatched ui' = dispatched mounted_page
  ∧ ∃ id, resizer ui' = Some id
    ∧ timers ui' = {[ id := (150, WINDOW_RESIZE (innerWidth_of (window_of_width 640))) ]}
    ∧ dispatched (react innerWidth_of (TimerFired id) ui')
      = dispatched mounted_page ++ [WINDOW_RESIZE (innerWidth_of (window_of_width 640))]
    ∧ timers (react innerWidth_of (TimerFired id) ui') = ∅.
Proof.
  apply (resize_burst_dispatches_last_width innerWidth_of mounted_page
           [window_of_width 800] (window_of_width 640)).
  - exact mounted_page_only_resizer_pending.
  - exact mounted_page_listens.
Defined.

(** The mount of the example: a redirect to [/], a listener and a timer
    for the width 1024. *)
Lemma mount_of_example_app :
  dispatched mounted_page = [push "/"]
  ∧ "resize" ∈ listeners mounted_page
  ∧ ∃ id, resizer mounted_page = Some id
      ∧ timers mounted_page !! id = Some (150, WINDOW_RESIZE 1024).
Proof.
  destruct (componentWillMount_run innerWidth_of true example_routes "/auth"
              false true (VBool false) (loaded (window_of_width 1024)))
    as (Hd & _ & Hb).
  split; [exact Hd|]. exact (Hb eq_refl).
Defined.

(** At [/auth], the login that arrives with the next props redirects. *)
Lemma login_at_auth_redirects :
  componentWillReceiveProps
    (connected innerWidth_of example_routes "/auth" false false (VBool false))
    example_app (loaded (window_of_width 1024))
  = store_dispatch (push "/") (loaded (window_of_width 1024)).
Proof.
  exact (proj1 (proj2 (componentWillReceiveProps_run innerWidth_of example_routes
                         "/auth" false false (VBool false) example_app
                         (loaded (window_of_width 1024))))
           eq_refl eq_refl).
Defined.

(** The one entry of the example menu. *)
Lemma dashboard_entry :
  let b : gmap string value :=
    {[ "path" := VStr "/"; "name" := VStr "Dashboard"; "icon" := VUndefined;
       "external" := VUndefined; "strict" := VUndefined; "exact" := VBool true ]} in
  dom b = {[ "path"; "name"; "icon"; "external"; "strict"; "exact" ]}
  ∧ ∃ a, a ∈ routes example_app
      ∧ truthy (prop_of "sidebarVisible" a) = true
      ∧ ∀ k, k ∈ dom b → b !! k = Some (prop_of k a).
Proof.
  apply (sidebar_entries_come_from_visible_routes example_app).
  apply list_elem_of_here.
Defined.

(** The menu of the example lists the dashboard, and it cannot serve as
    the routes of another menu. *)
Lemma example_menu :
  (∃ b, getSidebarRouting example_app !! 0%nat = Some b
        ∧ prop_of "name" b = VStr "Dashboard")
  ∧ getSidebarRouting
      (connected innerWidth_of (getSidebarRouting example_app) "/" false true
         (VBool false)) = [].
Proof.
  destruct (sidebar_menu_is_complete_and_not_reusable example_app
              (connected innerWidth_of (getSidebarRouting example_app) "/" false
                 true (VBool false))) as (Hentry & _ & Hnone).
  split.
  - destruct (Hentry 0%nat _ eq_refl) as (b & Hb & _ & Hname). eauto.
  - exact (Hnone eq_refl).
Defined.

(** At [/hidden] the route matches and has no name: the title is ['404'];
    at [/auth] it is the name of the route. *)
Lemma titles_of_example_app :
  getPageTitle exact_path example_app "/hidden" = VStr "404"
  ∧ getPageTitle exact_path example_app "/auth" = VStr "Auth"
  ∧ getPageTitle exact_path example_app "/nowhere" = VStr "404".
Proof.
  split_and!.
  - apply (proj1 (page_title_of_first_match exact_path example_app "/hidden")
             (take 2 example_routes) _ [] eq_refl).
    + intros b Hb.
      repeat (apply elem_of_cons in Hb as [->|Hb]; [reflexivity|]).
      by apply elem_of_nil in Hb.
    + reflexivity.
  - apply (proj1 (page_title_of_first_match exact_path example_app "/auth")
             (take 1 example_routes) _ (drop 2 example_routes) eq_refl).
    + intros b Hb.
      repeat (apply elem_of_cons in Hb as [->|Hb]; [reflexivity|]).
      by apply elem_of_nil in Hb.
    + reflexivity.
  - apply (proj2 (page_title_of_first_match exact_path example_app "/nowhere")).
    intros b Hb.
    repeat (apply elem_of_cons in Hb as [->|Hb]; [reflexivity|]).
    by apply elem_of_nil in Hb.
Defined.

(** With the sidebar opened, the dimmer of a logged-in user is active and
    the sidebar is there, open. *)
Lemma active_dimmer_of_example :
  ∃ sidebar,
    props_of "Sidebar"
      (render exact_path
         (connected innerWidth_of example_routes "/" true true (VBool false)))
    = [sidebar]
    ∧ sidebar !! "open" = Some (PValue (VBool true)).
Proof.
  apply (proj2 (sidebar_is_rendered_when_logged_in exact_path
                  (connected innerWidth_of example_routes "/" true true (VBool false)))
           {[ "active" := PValue (VBool true); "page" := PValue (VBool true);
              "onClick" := PHandler (store_dispatch CLOSE_SIDEBAR) ]}).
  - apply list_elem_of_here.
  - reflexivity.
Defined.
